(** * emailer: configuration loaders and the mail sender

    A shallow embedding of [emailer/config.py] and [emailer/emailer.py].

    Python values are embedded as follows.
    - [str] is [string]; only the ASCII range of the character predicates
      used by [str.strip], [str.lower] and [int] is modelled.
    - a configuration [dict] is a [gmap string value]; every key the loaders
      create is a string.
    - an exception leaving a function is the [Raise] outcome of [result].
    - the process environment, the file system, [json.load] and
      [configparser] are the fields of a [world] record.
    - the SMTP server is a [behaviour]: a function that decides, for every
      operation of a session and the operations before it, whether the
      operation raises.
    - the list objects a caller passes live in a [store], so that a list
      extended in place is seen under every name it has. *)

From Stdlib Require Import ZArith Ascii String List Bool Lia.
From stdpp Require Import gmap strings list fin_maps.

Open Scope string_scope.
Open Scope list_scope.

(** ** Python string primitives *)

Module Py.

(** The characters [str.isspace] accepts, within ASCII: tab, line feed,
    vertical tab, form feed, carriage return, the four separators
    0x1c-0x1f and the space. *)
Definition is_space (c : ascii) : bool :=
  let n := nat_of_ascii c in
  (((9 <=? n) && (n <=? 13)) || ((28 <=? n) && (n <=? 32)))%nat.

Fixpoint lstrip (s : string) : string :=
  match s with
  | EmptyString => EmptyString
  | String c s' => if is_space c then lstrip s' else s
  end.

Fixpoint rstrip (s : string) : string :=
  match s with
  | EmptyString => EmptyString
  | String c s' =>
      match rstrip s' with
      | EmptyString => if is_space c then EmptyString else String c EmptyString
      | r => String c r
      end
  end.

(** [s.strip()] *)
Definition strip (s : string) : string := rstrip (lstrip s).

(** [s.startswith(p)] *)
Fixpoint startswith (p s : string) : bool :=
  match p, s with
  | EmptyString, _ => true
  | String a p', String b s' => if Ascii.eqb a b then startswith p' s' else false
  | String _ _, EmptyString => false
  end.

(** [s[n:]] *)
Fixpoint drop (n : nat) (s : string) : string :=
  match n, s with
  | O, _ => s
  | S n', String _ s' => drop n' s'
  | S _, EmptyString => EmptyString
  end.

(** [sub in s] for two strings. *)
Fixpoint contains (sub s : string) : bool :=
  startswith sub s ||
  match s with
  | EmptyString => false
  | String _ s' => contains sub s'
  end.

(** [s.split(c, 1)] for a one-character separator that occurs in [s]:
    the text before the first [c] and the text after it. [None] when [c]
    does not occur. *)
Fixpoint split_once (c : ascii) (s : string) : option (string * string) :=
  match s with
  | EmptyString => None
  | String a s' =>
      if Ascii.eqb a c then Some (EmptyString, s')
      else match split_once c s' with
           | Some (k, v) => Some (String a k, v)
           | None => None
           end
  end.

Definition lower_char (c : ascii) : ascii :=
  let n := nat_of_ascii c in
  if ((65 <=? n) && (n <=? 90))%nat then ascii_of_nat (n + 32) else c.

(** [s.lower()] *)
Fixpoint lower (s : string) : string :=
  match s with
  | EmptyString => EmptyString
  | String c s' => String (lower_char c) (lower s')
  end.

(** [sep.join(l)] *)
Fixpoint join (sep : string) (l : list string) : string :=
  match l with
  | [] => EmptyString
  | [x] => x
  | x :: rest => x +:+ sep +:+ join sep rest
  end.

Definition digit_of (c : ascii) : option Z :=
  let n := nat_of_ascii c in
  if ((48 <=? n) && (n <=? 57))%nat then Some (Z.of_nat (n - 48)) else None.

(** The decimal digits of an integer literal: digits, with single
    underscores allowed between two digits. [prev] tells whether the
    character before was a digit. *)
Fixpoint digits (acc : Z) (prev : bool) (s : string) : option Z :=
  match s with
  | EmptyString => if prev then Some acc else None
  | String c s' =>
      match digit_of c with
      | Some d => digits (10 * acc + d) true s'
      | None => if Ascii.eqb c "_" && prev then digits acc false s' else None
      end
  end.

(** [int(s)] for a string: surrounding white space is dropped, one sign is
    accepted; [None] stands for [ValueError]. *)
Definition int (s : string) : option Z :=
  match strip s with
  | String "+" r => digits 0 false r
  | String "-" r => Z.opp <$> digits 0 false r
  | r => digits 0 false r
  end.

(** [s.replace(old, new)]: every occurrence of [old], found from the left
    and without overlap, becomes [new]. [skip] counts the characters of a
    match that are still to be passed over. With an empty [old] Python
    puts [new] before every character and at the end. *)
Fixpoint replace_from (old new : string) (skip : nat) (s : string) : string :=
  match s with
  | EmptyString => EmptyString
  | String c s' =>
      match skip with
      | S n => replace_from old new n s'
      | O =>
          if startswith old s
          then new +:+ replace_from old new (String.length old - 1) s'
          else String c (replace_from old new 0 s')
      end
  end.

Fixpoint intersperse (new s : string) : string :=
  match s with
  | EmptyString => new
  | String c s' => new +:+ String c (intersperse new s')
  end.

Definition replace (old new s : string) : string :=
  match old with
  | EmptyString => intersperse new s
  | _ => replace_from old new 0 s
  end.

(** [os.path.basename(p)] on a POSIX path: the text after the last slash. *)
Fixpoint basename (p : string) : string :=
  match p with
  | EmptyString => EmptyString
  | String c p' =>
      if contains "/" p' then basename p'
      else if Ascii.eqb c "/" then p' else p
  end.

(** The lines a text file yields when iterated, line ends translated to
    a line feed and kept at the end of each line. *)
Fixpoint lines_from (cur : string) (s : string) : list string :=
  match s with
  | EmptyString => match cur with EmptyString => [] | _ => [String.rev cur] end
  | String c s' =>
      if Ascii.eqb c "010" then String.rev (String c cur) :: lines_from EmptyString s'
      else if Ascii.eqb c "013" then
        match s' with
        | String "010" _ => lines_from cur s'
        | _ => String.rev (String "010" cur) :: lines_from EmptyString s'
        end
      else lines_from (String c cur) s'
  end.

Definition lines (s : string) : list string := lines_from EmptyString s.

End Py.

(** ** Python values, exceptions and the outside world *)

(** The values [json.load] can produce. A float keeps its lexeme, and a
    [VDict] lists the items of a [dict] in insertion order, one per key. *)
#[warnings="-register-all"]
Inductive value :=
| VNone
| VBool (b : bool)
| VInt (z : Z)
| VFloat (lexeme : string)
| VStr (s : string)
| VList (l : list value)
| VDict (items : list (string * value)).

(** The exception classes the code meets. [OSError] is also what the
    source calls [IOError]; [OtherError] is any further subclass of
    [Exception], named. *)
Inductive exn :=
| TypeError
| ValueError
| OSError
| SMTPAuthenticationError (reply : string)
| SMTPServerDisconnected (reply : string)
| OtherError (name reply : string).

Inductive result (A : Type) :=
| Ret (a : A)
| Raise (e : exn).
Arguments Ret {A} a.
Arguments Raise {A} e.

#[global] Instance result_bind : MBind result := fun A B f m =>
  match m with
  | Ret a => f a
  | Raise e => Raise e
  end.

Definition returns {A} (m : result A) : Prop := exists a, m = Ret a.

(** A path that [os.path.isfile] accepts names a file that can be read,
    or one whose [open] raises [OSError]. File contents are text. *)
Inductive file :=
| Unreadable
| Readable (content : string).

(** What [configparser] shows of one section: its options in order, keys
    already lower-cased; [None] as a value marks an option whose
    interpolation raises [InterpolationError] when it is read. *)
Definition ini_section := list (string * option string).

(** [parser[section]] for every section name that is [in parser]. *)
Definition ini_parser := string -> option ini_section.

Record world := World {
  (** [os.environ.get] *)
  environ : string -> option string;
  (** the regular files, by path *)
  files : string -> option file;
  (** [json.load] on the text of a file; [None] is [json.JSONDecodeError] *)
  json_load : string -> option value;
  (** [ConfigParser.read] on the text of a file; [None] is a
      [configparser.Error] *)
  ini_read : string -> option ini_parser
}.

(** [os.path.isfile] *)
Definition isfile (w : world) (path : string) : bool :=
  match files w path with Some _ => true | None => false end.

(** A parser that has read nothing: only the default section is there,
    and it is empty. *)
Definition empty_parser : ini_parser :=
  fun section => if String.eqb section "DEFAULT" then Some [] else None.

(** ** emailer/config.py *)

Abbreviation fragment := (gmap string value).

(** The string-keyed [dict] holding [items], a later item replacing an
    earlier one under the same key. *)
Definition dict_of_items (items : list (string * value)) : fragment :=
  fold_left (fun config kv => <[kv.1 := kv.2]> config) items ∅.

(** [config.update(other)] for two dicts. *)
Definition update (config other : fragment) : fragment := other ∪ config.

(** The conversion all three file loaders end with:
    [config["smtp_port"] = int(config["smtp_port"])] under
    [except ValueError: pass], for a string value. *)
Definition convert_smtp_port (config : fragment) : fragment :=
  match config !! "smtp_port" with
  | Some (VStr s) =>
      match Py.int s with
      | Some n => <["smtp_port" := VInt n]> config
      | None => config
      end
  | _ => config
  end.

(** [if v: config[key] = v] for the result of [os.environ.get]. *)
Definition set_if_given (key : string) (v : option string) (config : fragment)
  : fragment :=
  match v with
  | Some ((String _ _) as s) => <[key := VStr s]> config
  | _ => config
  end.

Definition load_from_env (w : world) (prefix : string) : result fragment :=
  let config : fragment := ∅ in
  let email := environ w (prefix +:+ "ADDRESS") in
  let password := environ w (prefix +:+ "PASSWORD") in
  let config := set_if_given "email" email config in
  let config := set_if_given "password" password config in
  let smtp_server := environ w (prefix +:+ "SMTP_SERVER") in
  let smtp_port := environ w (prefix +:+ "SMTP_PORT") in
  let config := set_if_given "smtp_server" smtp_server config in
  let config :=
    match smtp_port with
    | Some ((String _ _) as s) =>
        match Py.int s with
        | Some n => <["smtp_port" := VInt n]> config
        | None => config
        end
    | _ => config
    end in
  Ret config.

(** What [load_from_json] hands back: a dict, or the JSON value of a
    document whose top level is not an object. *)
Inductive loaded :=
| Mapping (config : fragment)
| NotMapping (v : value).

Definition is_str (s : string) (v : value) : bool :=
  match v with
  | VStr t => String.eqb s t
  | _ => false
  end.

Definition load_from_json (w : world) (file_path : string) : result loaded :=
  match files w file_path with
  | None => Ret (Mapping ∅)
  | Some Unreadable => Ret (Mapping ∅)
  | Some (Readable text) =>
      match json_load w text with
      | None => Ret (Mapping ∅)
      | Some (VDict items) =>
          let config := dict_of_items items in
          Ret (Mapping (convert_smtp_port config))
      | Some (VList l) =>
          (* ["smtp_port" in config] holds for a list with that element,
             and [config["smtp_port"]] then raises *)
          if existsb (is_str "smtp_port") l then Raise TypeError
          else Ret (NotMapping (VList l))
      | Some (VStr s) =>
          if Py.contains "smtp_port" s then Raise TypeError
          else Ret (NotMapping (VStr s))
      | Some _ =>
          (* [in] on a number, a boolean or [None] *)
          Raise TypeError
      end
  end.

(** [for key, value in parser[section].items(): config[key] = value],
    up to the first option whose interpolation raises. The flag tells
    whether the loop ran to its end. *)
Fixpoint copy_options (config : fragment) (options : ini_section)
  : fragment * bool :=
  match options with
  | [] => (config, true)
  | (key, Some v) :: rest => copy_options (<[key := VStr v]> config) rest
  | (_, None) :: _ => (config, false)
  end.

Definition load_from_ini (w : world) (file_path section : string)
  : result fragment :=
  match files w file_path with
  | None => Ret ∅
  | Some f =>
      let read :=
        match f with
        | Unreadable => Some empty_parser   (* [read] skips what it cannot open *)
        | Readable text => ini_read w text
        end in
      match read with
      | None => Ret ∅
      | Some parser =>
          match parser section with
          | None => Ret ∅
          | Some options =>
              match copy_options ∅ options with
              | (config, true) => Ret (convert_smtp_port config)
              | (config, false) => Ret config
              end
          end
      end
  end.

Definition is_empty (s : string) : bool :=
  match s with EmptyString => true | _ => false end.

(** The body of the loop over the lines of a dotenv file. *)
Definition dotenv_line (prefix : string) (config : fragment) (line : string)
  : fragment :=
  let line := Py.strip line in
  if is_empty line || Py.startswith "#" line then config
  else
    let pair :=
      if Py.contains "=" line then Py.split_once "=" line
      else if Py.contains ":" line then Py.split_once ":" line
      else None in
    match pair with
    | None => config
    | Some (key, v) =>
        if Py.startswith prefix key then
          let config_key := Py.lower (Py.drop (String.length prefix) key) in
          let config_key :=
            if String.eqb config_key "address" then "email" else config_key in
          <[config_key := VStr v]> config
        else config
    end.

Definition load_from_dotenv (w : world) (file_path prefix : string)
  : result fragment :=
  match files w file_path with
  | None => Ret ∅
  | Some Unreadable => Ret ∅
  | Some (Readable text) =>
      let config := fold_left (dotenv_line prefix) (Py.lines text) ∅ in
      Ret (convert_smtp_port config)
  end.

(** A path argument that is given and not empty. *)
Definition given (path : option string) : option string :=
  match path with
  | Some ((String _ _) as p) => Some p
  | _ => None
  end.

(** One element of a sequence handed to [dict.update]: it must itself be
    a sequence of two, key then value. A list or dict as key cannot be
    hashed. [Ret None] is an entry under a key that is not a string, which
    a [fragment] does not show. *)
Definition pair_of (element : value) : result (option (string * value)) :=
  match element with
  | VList [VStr k; v] => Ret (Some (k, v))
  | VList [VList _; _] | VList [VDict _; _] => Raise TypeError
  | VList [_; _] => Ret None
  | VList _ => Raise ValueError
  | VStr (String a (String b EmptyString)) =>
      Ret (Some (String a EmptyString, VStr (String b EmptyString)))
  | VStr _ => Raise ValueError
  | VDict [(k1, _); (k2, _)] => Ret (Some (k1, VStr k2))
  | VDict _ => Raise ValueError
  | _ => Raise TypeError
  end.

Fixpoint update_pairs (config : fragment) (elements : list value)
  : result fragment :=
  match elements with
  | [] => Ret config
  | element :: rest =>
      p ← pair_of element;
      match p with
      | Some (k, v) => update_pairs (<[k := v]> config) rest
      | None => update_pairs config rest
      end
  end.

(** [config.update(x)] for what [load_from_json] returned. *)
Definition update_loaded (config : fragment) (x : loaded) : result fragment :=
  match x with
  | Mapping other => Ret (update config other)
  | NotMapping (VList elements) => update_pairs config elements
  | NotMapping (VStr EmptyString) => Ret config
  | NotMapping (VStr _) => Raise ValueError
  | NotMapping _ => Raise TypeError
  end.

Definition get_config (w : world) (env_prefix : string)
    (json_path ini_path dotenv_path : option string) (ini_section : string)
  : result fragment :=
  let config : fragment := ∅ in
  config ←
    match given ini_path with
    | Some path => other ← load_from_ini w path ini_section; Ret (update config other)
    | None => Ret config
    end;
  config ←
    match given dotenv_path with
    | Some path => other ← load_from_dotenv w path env_prefix; Ret (update config other)
    | None => Ret config
    end;
  config ←
    match given json_path with
    | Some path => other ← load_from_json w path; update_loaded config other
    | None => Ret config
    end;
  other ← load_from_env w env_prefix;
  Ret (update config other).

(** ** emailer/emailer.py *)

(** [self.smtp_port]: an integer, or the string a configuration file left
    in its place. *)
Inductive port :=
| PortInt (n : Z)
| PortStr (s : string).

Record EmailSender := {
  email : string;
  password : string;
  smtp_server : string;
  smtp_port : port
}.

(** List objects live in a store, by address, so that [list.extend] on
    the caller's list is seen by the caller and by every other name of
    the same list. A list object the caller passes is in the store. *)
Abbreviation loc := nat.
Abbreviation store := (gmap nat (list string)).

(** A recipient argument: one address as a [str], or a list object. *)
Inductive recipients :=
| Address (s : string)
| Addresses (l : loc).

(** The list a local variable names: a list built inside the call, or a
    list object of the caller. *)
Inductive listvar :=
| Own (items : list string)
| Shared (l : loc).

Definition read (σ : store) (x : listvar) : list string :=
  match x with
  | Own items => items
  | Shared l => σ !!! l
  end.

(** [x.extend(more)] *)
Definition extend (σ : store) (x : listvar) (more : list string)
  : store * listvar :=
  match x with
  | Own items => (σ, Own (items ++ more))
  | Shared l => (<[l := σ !!! l ++ more]> σ, x)
  end.

(** [if isinstance(x, str): x = [x]] *)
Definition as_list (x : recipients) : listvar :=
  match x with
  | Address s => Own [s]
  | Addresses l => Shared l
  end.

(** The truth value of an optional recipient argument: [None], the empty
    string and the empty list are false. *)
Definition truthy (σ : store) (x : option recipients) : bool :=
  match x with
  | None => false
  | Some (Address s) => negb (is_empty s)
  | Some (Addresses l) => match σ !!! l with [] => false | _ => true end
  end.

Inductive part :=
| TextPart (subtype body : string)
| ApplicationPart (name data disposition : string).

(** The MIME message: its headers in the order they were set, and the
    attached parts. *)
Record message := {
  headers : list (string * string);
  parts : list part
}.

Definition quote : string := String (ascii_of_nat 34) EmptyString.

(** The part built for one attachment that could be read. *)
Definition attachment_part (file_path data : string) : part :=
  ApplicationPart (Py.basename file_path) data
    ("attachment; filename=" +:+ quote +:+ Py.basename file_path +:+ quote).

(** The loop over [attachments]: a path that is not a file is passed
    over; opening a file that cannot be read raises. *)
Fixpoint attach_files (w : world) (attachments : list string) (attached : list part)
  : result (list part) :=
  match attachments with
  | [] => Ret attached
  | file_path :: rest =>
      match files w file_path with
      | None => attach_files w rest attached
      | Some Unreadable => Raise OSError
      | Some (Readable data) =>
          attach_files w rest (attached ++ [attachment_part file_path data])
      end
  end.

(** What the sender asks of [ssl] and [smtplib]. *)
Inductive smtp_op :=
| CreateContext
| OpenSSL (host : string) (p : port)
| OpenPlain (host : string) (p : port)
| Ehlo
| Starttls
| Login (user secret : string)
| Sendmail (from_addr : string) (to_addrs : list string) (msg : message)
| Quit.

(** Every operation but the creation of the TLS context talks to the
    server. *)
Definition is_network (op : smtp_op) : bool :=
  match op with
  | CreateContext => false
  | _ => true
  end.

(** The other side: given the operations done so far and the next one,
    the exception the next one raises, if any. *)
Definition behaviour := list smtp_op -> smtp_op -> option exn.

Definition perform (b : behaviour) (op : smtp_op) (done : list smtp_op)
  : list smtp_op * result unit :=
  (done ++ [op], match b done op with Some e => Raise e | None => Ret tt end).

Fixpoint perform_all (b : behaviour) (ops : list smtp_op) (done : list smtp_op)
  : list smtp_op * result unit :=
  match ops with
  | [] => (done, Ret tt)
  | op :: rest =>
      match perform b op done with
      | (done, Ret _) => perform_all b rest done
      | (done, Raise e) => (done, Raise e)
      end
  end.

(** [with <open> as server: <body>]. When the constructor raises there is
    nothing to leave. Otherwise leaving sends QUIT, whether or not the
    body raised; a dropped connection at that point is ignored, any other
    exception of QUIT is the one that leaves the statement. *)
Definition with_server (b : behaviour) (open : smtp_op) (body : list smtp_op)
    (done : list smtp_op) : list smtp_op * result unit :=
  match perform b open done with
  | (done, Raise e) => (done, Raise e)
  | (done, Ret _) =>
      let '(done, r) := perform_all b body done in
      let '(done, q) := perform b Quit done in
      (done, match q with
             | Ret _ | Raise (SMTPServerDisconnected _) => r
             | Raise e => Raise e
             end)
  end.

(** [int(self.smtp_port)] *)
Definition port_number (p : port) : result Z :=
  match p with
  | PortInt n => Ret n
  | PortStr s => match Py.int s with Some n => Ret n | None => Raise ValueError end
  end.

(** The body of the [try] statement. *)
Definition session (b : behaviour) (self : EmailSender) (to_emails : list string)
    (msg : message) : list smtp_op * result unit :=
  match perform b CreateContext [] with
  | (done, Raise e) => (done, Raise e)
  | (done, Ret _) =>
      match port_number (smtp_port self) with
      | Raise e => (done, Raise e)
      | Ret n =>
          if (n =? 465)%Z then
            with_server b (OpenSSL (smtp_server self) (smtp_port self))
              [Login (email self) (password self);
               Sendmail (email self) to_emails msg] done
          else
            with_server b (OpenPlain (smtp_server self) (smtp_port self))
              [Ehlo; Starttls; Ehlo;
               Login (email self) (password self);
               Sendmail (email self) to_emails msg] done
      end
  end.

(** A printed line: fixed text, or a label followed by the text of an
    exception. *)
Inductive line :=
| Say (text : string)
| SayError (label : string) (e : exn).

(** The three [except] clauses. *)
Definition report (e : exn) : list line :=
  match e with
  | SMTPAuthenticationError _ =>
      [Say "Error sending email: Authentication failed. Please verify email/password or app-specific password.";
       SayError "SMTPAuthenticationError: " e]
  | SMTPServerDisconnected _ =>
      [Say "Error sending email: Connection unexpectedly closed by the server. This often happens when using STARTTLS on port 465. Try port 465 with SSL or port 587 with STARTTLS.";
       SayError "SMTPServerDisconnected: " e]
  | _ => [SayError "Error sending email: " e]
  end.

(** All that a call leaves behind: the store, the printed lines, the
    operations asked of the transport, and the value returned or the
    exception raised. *)
Record outcome := {
  heap : store;
  printed : list line;
  wire : list smtp_op;
  returned : result bool
}.

(** [if cc: ...]: the header is set from the list as it is then, and the
    same entries are added to [to_emails]. *)
Definition add_cc (σ : store) (to_emails : listvar) (hdrs : list (string * string))
    (cc : option recipients) : store * listvar * list (string * string) :=
  match cc with
  | Some c =>
      if truthy σ cc then
        let cc := read σ (as_list c) in
        let '(σ, to_emails) := extend σ to_emails cc in
        (σ, to_emails, hdrs ++ [("Cc", Py.join ", " cc)])
      else (σ, to_emails, hdrs)
  | None => (σ, to_emails, hdrs)
  end.

(** [if bcc: ...] *)
Definition add_bcc (σ : store) (to_emails : listvar) (bcc : option recipients)
  : store * listvar :=
  match bcc with
  | Some c =>
      if truthy σ bcc then extend σ to_emails (read σ (as_list c))
      else (σ, to_emails)
  | None => (σ, to_emails)
  end.

(** [if attachments: for file_path in attachments: ...] *)
Definition attach (w : world) (attachments : option (list string))
    (attached : list part) : result (list part) :=
  match attachments with
  | Some ((_ :: _) as paths) => attach_files w paths attached
  | _ => Ret attached
  end.

Definition send_email (w : world) (b : behaviour) (self : EmailSender)
    (σ : store) (to_emails : recipients) (subject body : string) (html : bool)
    (attachments : option (list string)) (cc bcc : option recipients)
  : outcome :=
  let to_emails := as_list to_emails in
  let hdrs := [("From", email self);
               ("To", Py.join ", " (read σ to_emails));
               ("Subject", subject)] in
  let '(σ, to_emails, hdrs) := add_cc σ to_emails hdrs cc in
  let '(σ, to_emails) := add_bcc σ to_emails bcc in
  let attached := [TextPart (if html then "html" else "plain") body] in
  match attach w attachments attached with
  | Raise e => {| heap := σ; printed := []; wire := []; returned := Raise e |}
  | Ret attached =>
      let msg := {| headers := hdrs; parts := attached |} in
      match session b self (read σ to_emails) msg with
      | (done, Ret _) =>
          {| heap := σ; printed := []; wire := done; returned := Ret true |}
      | (done, Raise e) =>
          {| heap := σ; printed := report e; wire := done; returned := Ret false |}
      end
  end.

Definition send_html_email (w : world) (b : behaviour) (self : EmailSender)
    (σ : store) (to_emails : recipients) (subject html_body : string)
    (attachments : option (list string)) (cc bcc : option recipients)
  : outcome :=
  send_email w b self σ to_emails subject html_body true attachments cc bcc.

(** The loop over [template_vars.items()], the items in the order of the
    dict. *)
Definition substitute (template : string) (template_vars : list (string * string))
  : string :=
  fold_left (fun body kv => Py.replace ("{" +:+ kv.1 +:+ "}") kv.2 body)
    template_vars template.


(** ** send_email.py *)

Module Cli.

(** [s.endswith(suffix)] *)
Definition endswith (suffix s : string) : bool :=
  (String.length suffix <=? String.length s)%nat &&
  String.eqb (Py.drop (String.length s - String.length suffix) s) suffix.

(** [s.split(c)] for a one-character separator: the texts between the
    occurrences of [c], at least one. *)
Fixpoint split (c : ascii) (s : string) : list string :=
  match s with
  | EmptyString => [EmptyString]
  | String a s' =>
      if Ascii.eqb a c then EmptyString :: split c s'
      else match split c s' with
           | x :: rest => String a x :: rest
           | [] => [String a EmptyString]
           end
  end.

(** [[email.strip() for email in s.split(",")]] *)
Definition addresses (s : string) : list string :=
  Py.strip <$> split "," s.

(** The parsed command line. [cc], [bcc] and [config_file] are [None]
    when the option is not given, and so is [attachment], which otherwise
    lists the files of all its occurrences. *)
Record args := {
  to : string;
  subject : string;
  body : string;
  config_file : option string;
  html : bool;
  cc : option string;
  bcc : option string;
  attachment : option (list string)
}.

(** How the program ends: [main] returns, [sys.exit] is called, an
    exception leaves [main], or the configuration holds a value of a type
    that the parameters of [EmailSender] are not annotated with, for
    which the sender is not modelled. *)
Inductive ending :=
| Returned
| Exit (status : Z)
| Uncaught (e : exn)
| Untyped.

(** A run of the program: what it printed, what it asked of the
    transport, how it ended. *)
Record run := {
  out : list line;
  net : list smtp_op;
  ended : ending
}.

Section Truth.

(** The truth value of a float, by its lexeme: whether it is not zero. *)
Variable float_truth : string -> bool.

(** [bool(v)] *)
Definition truth (v : value) : bool :=
  match v with
  | VNone => false
  | VBool b => b
  | VInt z => negb (z =? 0)%Z
  | VFloat lexeme => float_truth lexeme
  | VStr s => negb (is_empty s)
  | VList l => match l with [] => false | _ => true end
  | VDict items => match items with [] => false | _ => true end
  end.

(** [not config.get(key)] *)
Definition lacks (config : fragment) (key : string) : bool :=
  match config !! key with
  | Some v => negb (truth v)
  | None => true
  end.

(** [get_email_config]: the configuration, or the lines printed before
    [sys.exit(1)], or the exception of [get_config]. [dotenv_path] is the
    path of the file [.env] beside the script. *)
Definition get_email_config (w : world) (dotenv_path : string)
    (config_file : option string) : list line * (fragment + ending) :=
  let loaded : list line * (result fragment + ending) :=
    match given config_file with
    | Some f =>
        if endswith ".json" (Py.lower f) then
          ([], inl (get_config w "EMAIL_" (Some f) None None "email"))
        else if endswith ".ini" (Py.lower f) then
          ([], inl (get_config w "EMAIL_" None (Some f) None "email"))
        else if endswith ".env" (Py.lower f) then
          ([], inl (get_config w "EMAIL_" None None (Some f) "email"))
        else
          ([Say ("Unsupported configuration file format: " +:+ f);
            Say "Supported formats: .json, .ini, .env"],
           inr (Exit 1))
    | None =>
        if isfile w dotenv_path then
          ([], inl (get_config w "EMAIL_" None None (Some dotenv_path) "email"))
        else
          ([], inl (get_config w "EMAIL_" None None None "email"))
    end in
  match loaded with
  | (printed, inr e) => (printed, inr e)
  | (printed, inl (Raise e)) => (printed, inr (Uncaught e))
  | (printed, inl (Ret config)) =>
      if lacks config "email" || lacks config "password" then
        (printed ++
         [Say "Error: Missing email credentials.";
          Say "Please set EMAIL_ADDRESS and EMAIL_PASSWORD environment variables,";
          Say "create a .env file in the current directory,";
          Say "or provide a configuration file with --config-file."],
         inr (Exit 1))
      else (printed, inl config)
  end.

(** The parameters of [EmailSender.__init__]. *)
Definition parameters : gset string :=
  {["email"; "password"; "smtp_server"; "smtp_port"]}.

(** [EmailSender] called with the items of [config] as keyword
    arguments: a key that is no parameter, or the lack of
    [email] or [password], is a [TypeError]; [smtp_server] and
    [smtp_port] have defaults. [None] is a sender with a value of a type
    the model has no place for. *)
Definition construct (config : fragment) : result (option EmailSender) :=
  if bool_decide (dom config ⊆ parameters) then
    match config !! "email", config !! "password" with
    | Some e, Some p =>
        let server :=
          match config !! "smtp_server" with
          | None => Some "smtp.gmail.com"
          | Some (VStr s) => Some s
          | Some _ => None
          end in
        let port :=
          match config !! "smtp_port" with
          | None => Some (PortInt 587)
          | Some (VInt n) => Some (PortInt n)
          | Some (VStr s) => Some (PortStr s)
          | Some _ => None
          end in
        match e, p, server, port with
        | VStr e, VStr p, Some server, Some port =>
            Ret (Some {| email := e; password := p;
                         smtp_server := server; smtp_port := port |})
        | _, _, _, _ => Ret None
        end
    | _, _ => Raise TypeError
    end
  else Raise TypeError.

(** The loop that verifies the attachments: the first path that is not a
    file, if any. *)
Definition first_missing (w : world) (paths : list string) : option string :=
  List.find (fun p => negb (isfile w p)) paths.

(** An optional list argument built from an option of the command line:
    absent when the option is not given or empty. The list is a new list
    object at address [l]. *)
Definition list_argument (l : loc) (o : option string) (σ : store)
  : store * option recipients :=
  match given o with
  | Some s => (<[l := addresses s]> σ, Some (Addresses l))
  | None => (σ, None)
  end.

Definition main (w : world) (b : behaviour) (dotenv_path : string) (a : args)
  : run :=
  match get_email_config w dotenv_path (config_file a) with
  | (shown, inr e) => {| out := shown; net := []; ended := e |}
  | (shown, inl config) =>
      match construct config with
      | Raise e => {| out := shown; net := []; ended := Uncaught e |}
      | Ret None => {| out := shown; net := []; ended := Untyped |}
      | Ret (Some sender) =>
          let σ : store := {[0 := addresses (to a)]} in
          let '(σ, cc) := list_argument 1 (cc a) σ in
          let '(σ, bcc) := list_argument 2 (bcc a) σ in
          let checked : list line * option (option (list string)) :=
            match attachment a with
            | Some ((_ :: _) as paths) =>
                match first_missing w paths with
                | Some p =>
                    ([Say ("Error: Attachment file not found: " +:+ p)], None)
                | None => ([], Some (Some paths))
                end
            | _ => ([], Some None)
            end in
          match checked with
          | (said, None) =>
              {| out := shown ++ said; net := []; ended := Exit 1 |}
          | (said, Some attachments) =>
              let o := send_email w b sender σ (Addresses 0) (subject a) (body a)
                         (html a) attachments cc bcc in
              match returned o with
              | Raise e =>
                  {| out := shown ++ said ++ printed o;
                     net := wire o; ended := Uncaught e |}
              | Ret true =>
                  {| out := shown ++ said ++ printed o ++
                            [Say "Email sent successfully!"];
                     net := wire o; ended := Returned |}
              | Ret false =>
                  {| out := shown ++ said ++ printed o ++
                            [Say "Failed to send email."];
                     net := wire o; ended := Exit 1 |}
              end
          end
      end
  end.

End Truth.

End Cli.

(** ** The vocabulary of the properties *)




(** The fragment of a source that is read only when its path is given. *)
Definition from_path {A} (path : option string) (load : string -> result A)
    (otherwise : A) : result A :=
  match given path with
  | Some p => load p
  | None => Ret otherwise
  end.

(** The first of the four values that is there, the environment first. *)
Definition by_priority (env json dotenv ini : option value) : option value :=
  match env, json, dotenv with
  | Some v, _, _ => Some v
  | None, Some v, _ => Some v
  | None, None, Some v => Some v
  | None, None, None => ini
  end.

(** The operations of the implicit-SSL path, in order, up to the
    transmission. *)
Definition ssl_steps (self : EmailSender) (to_addrs : list string) (msg : message)
  : list smtp_op :=
  [CreateContext;
   OpenSSL (smtp_server self) (smtp_port self);
   Login (email self) (password self);
   Sendmail (email self) to_addrs msg].

(** The operations of the STARTTLS path: a plain connection, a handshake,
    the upgrade, a second handshake, then as above. *)
Definition starttls_steps (self : EmailSender) (to_addrs : list string)
    (msg : message) : list smtp_op :=
  [CreateContext;
   OpenPlain (smtp_server self) (smtp_port self);
   Ehlo; Starttls; Ehlo;
   Login (email self) (password self);
   Sendmail (email self) to_addrs msg].

Definition steps_for (n : Z) (self : EmailSender) (to_addrs : list string)
    (msg : message) : list smtp_op :=
  if (n =? 465)%Z then ssl_steps self to_addrs msg
  else starttls_steps self to_addrs msg.

(** The addresses an optional recipient argument stands for in the store
    of the call: none when the argument is [None] or empty. *)
Definition entries (σ : store) (x : option recipients) : list string :=
  match x with
  | Some c => if truthy σ x then read σ (as_list c) else []
  | None => []
  end.

(** [bcc] is the very list object given as [to_emails], and there are CC
    entries to add to it before it is read. *)
Definition aliased (σ : store) (to_emails : recipients)
    (cc bcc : option recipients) : Prop :=
  match to_emails, bcc with
  | Addresses l, Some (Addresses l') => l = l' /\ truthy σ cc = true
  | _, _ => False
  end.

(** The headers of the message, as the spec lists them. *)
Definition expected_headers (self : EmailSender) (σ : store)
    (to_emails : recipients) (subject : string) (cc : option recipients)
  : list (string * string) :=
  [("From", email self);
   ("To", Py.join ", " (read σ (as_list to_emails)));
   ("Subject", subject)] ++
  (if truthy σ cc then [("Cc", Py.join ", " (entries σ cc))] else []).

(** The two blocks before the body is attached. *)
Definition prologue (self : EmailSender) (σ : store) (to_emails : recipients)
    (subject : string) (cc bcc : option recipients)
  : store * listvar * list (string * string) :=
  let to_emails := as_list to_emails in
  let hdrs := [("From", email self);
               ("To", Py.join ", " (read σ to_emails));
               ("Subject", subject)] in
  let '(σ, to_emails, hdrs) := add_cc σ to_emails hdrs cc in
  let '(σ, to_emails) := add_bcc σ to_emails bcc in
  (σ, to_emails, hdrs).

(** The text [str.replace] looks for, for a variable name. *)
Definition placeholder (name : string) : string := "{" +:+ name +:+ "}".

(** A name without a brace in it. *)
Fixpoint no_brace (s : string) : bool :=
  match s with
  | EmptyString => true
  | String c s' => negb (Ascii.eqb c "{") && negb (Ascii.eqb c "}") && no_brace s'
  end.

(** ** Worlds, senders and stores for the examples *)

Definition dotenv_world : world :=
  World (fun _ => None)
        (fun path => if String.eqb path ".env"
                     then Some (Readable "EMAIL_ADDRESS=x@y.com") else None)
        (fun _ => None) (fun _ => None).

(** Four sources that all give [smtp_port] as the string [s]. *)
Definition port_world (s : string) : world :=
  World (fun name => if String.eqb name "EMAIL_SMTP_PORT" then Some s else None)
        (fun path =>
           if String.eqb path "config.json" then Some (Readable "json")
           else if String.eqb path "config.ini" then Some (Readable "ini")
           else if String.eqb path ".env" then Some (Readable ("EMAIL_SMTP_PORT=" +:+ s))
           else None)
        (fun text => if String.eqb text "json"
                     then Some (VDict [("smtp_port", VStr s)]) else None)
        (fun text => if String.eqb text "ini"
                     then Some (fun section =>
                                  if String.eqb section "email"
                                  then Some [("smtp_port", Some s)] else None)
                     else None).

(** All four sources give a different address. *)
Definition priority_world : world :=
  World (fun name => if String.eqb name "EMAIL_ADDRESS" then Some "env@x.org" else None)
        (fun path =>
           if String.eqb path "c.json" then Some (Readable "json")
           else if String.eqb path "c.ini" then Some (Readable "ini")
           else if String.eqb path ".env" then Some (Readable "EMAIL_ADDRESS=dotenv@x.org")
           else None)
        (fun _ => Some (VDict [("email", VStr "json@x.org")]))
        (fun _ => Some (fun _ => Some [("email", Some "ini@x.org")])).

(** Nothing is set, and no path names a file. *)
Definition bare_world : world :=
  World (fun _ => None) (fun _ => None) (fun _ => None) (fun _ => None).

(** A server that accepts everything. *)
Definition cooperative : behaviour := fun _ _ => None.

Definition sender_587 : EmailSender :=
  {| email := "me@x.org"; password := "secret";
     smtp_server := "smtp.x.org"; smtp_port := PortInt 587 |}.

Definition sender_465 : EmailSender :=
  {| email := "me@x.org"; password := "secret";
     smtp_server := "smtp.x.org"; smtp_port := PortInt 465 |}.

(** One attachment is a file that cannot be opened. *)
Definition locked_world : world :=
  World (fun _ => None)
        (fun path => if String.eqb path "locked.pdf" then Some Unreadable else None)
        (fun _ => None) (fun _ => None).

(** Two list objects of the caller: the primary recipients at address 0
    and the CC recipients at address 1. *)
Definition two_lists : store := <[0 := ["a@x.org"]]> (<[1 := ["c@x.org"]]> ∅).

(** ** The vocabulary of further properties *)


(** Every value is a string, but for an integer under [smtp_port]. *)
Definition well_typed (config : fragment) : Prop :=
  forall k v, config !! k = Some v ->
    (exists s, v = VStr s) \/ (k = "smtp_port" /\ exists n, v = VInt n).







(** The content of a file that is there and can be read. *)
Definition readable_data (w : world) (path : string) : option string :=
  match files w path with
  | Some (Readable data) => Some data
  | _ => None
  end.

(** One part per listed path that is a readable file, in the order of the
    list. *)
Definition attached_parts (w : world) (paths : list string) : list part :=
  omap (fun p => attachment_part p <$> readable_data w p) paths.


(** Every value a string. *)
Definition all_str (config : fragment) : Prop :=
  forall k v, config !! k = Some v -> exists s, v = VStr s.

(** Keys in lower case, none of them [address]. *)
Definition dotenv_keys (config : fragment) : Prop :=
  forall k, is_Some (config !! k) -> Py.lower k = k /\ k <> "address".

(** ** Further worlds for the examples *)





(** One file that can be read, under a directory. *)
Definition report_world : world :=
  World (fun _ => None)
        (fun path => if String.eqb path "/tmp/out/report.pdf"
                     then Some (Readable "%PDF") else None)
        (fun _ => None) (fun _ => None).

Definition sender_abc : EmailSender :=
  {| email := "me@x.org"; password := "secret";
     smtp_server := "smtp.x.org"; smtp_port := PortStr "abc" |}.


(** A server that refuses the login. *)
Definition login_fails : behaviour :=
  fun _ op =>
    match op with
    | Login _ _ => Some (SMTPAuthenticationError "(535, b'bad credentials')")
    | _ => None
    end.

(** The address and the password are set in the environment, and there
    is no file. *)
Definition cli_world : world :=
  World (fun name =>
           if String.eqb name "EMAIL_ADDRESS" then Some "me@x.org"
           else if String.eqb name "EMAIL_PASSWORD" then Some "secret"
           else None)
        (fun _ => None) (fun _ => None) (fun _ => None).

(** As [cli_world], with a dotenv file that sets one more variable. *)
Definition cli_extra_world : world :=
  World (environ cli_world)
        (fun path => if String.eqb path "mail.env"
                     then Some (Readable "EMAIL_FROM_NAME=Me") else None)
        (fun _ => None) (fun _ => None).

(** Every float counts as true. *)
Definition any_float : string -> bool := fun _ => true.

Definition cli_args (config_file : option string)
    (attachment : option (list string)) : Cli.args :=
  {| Cli.to := "a@x.org, b@x.org";
     Cli.subject := "subject";
     Cli.body := "body";
     Cli.config_file := config_file;
     Cli.html := false;
     Cli.cc := None;
     Cli.bcc := None;
     Cli.attachment := attachment |}.

(** As [cli_world], with the readable file of [report_world]. *)
Definition cli_report_world : world :=
  World (environ cli_world) (files report_world) (fun _ => None) (fun _ => None).

(** * Properties *)

(** ** Facts about the string primitives *)

Lemma startswith_app (p s : string) : Py.startswith p (p +:+ s) = true.
Proof.
  induction p as [|a p IH]; simpl; [reflexivity|].
  now rewrite Ascii.eqb_refl.
Qed.

Lemma drop_app (p s : string) : Py.drop (String.length p) (p +:+ s) = s.
Proof. induction p as [|a p IH]; simpl; auto. Qed.


Lemma contains_char_cons (c a : ascii) (s : string) :
  Py.contains (String c EmptyString) (String a s) =
  Ascii.eqb c a || Py.contains (String c EmptyString) s.
Proof. simpl. now destruct (Ascii.eqb c a). Qed.



(** ** The dotenv loader *)




(** ** The conversion of [smtp_port] *)








(** ** The merge of the four sources *)

Lemma lookup_merged (env json dotenv ini : fragment) (key : string) :
  (env ∪ (json ∪ (dotenv ∪ ini))) !! key =
  by_priority (env !! key) (json !! key) (dotenv !! key) (ini !! key).
Proof.
  rewrite !lookup_union. unfold by_priority.
  destruct (env !! key), (json !! key), (dotenv !! key), (ini !! key);
    reflexivity.
Qed.

(** C3. With [ini], [dotenv], [json] and [env] the fragments of the four
    sources (empty for a file source whose path is not given),
    [get_config] returns their merge in the order INI, dotenv, JSON,
    environment, a later source replacing the keys of the earlier ones
    one by one: under every key the environment value wins, then the
    JSON value, then the dotenv value, then the INI value. *)
Theorem get_config_priority (w : world) (env_prefix : string)
    (json_path ini_path dotenv_path : option string) (ini_section : string)
    (ini dotenv json env : fragment) :
  from_path ini_path (fun p => load_from_ini w p ini_section) ∅ = Ret ini ->
  from_path dotenv_path (fun p => load_from_dotenv w p env_prefix) ∅ = Ret dotenv ->
  from_path json_path (load_from_json w) (Mapping ∅) = Ret (Mapping json) ->
  load_from_env w env_prefix = Ret env ->
  get_config w env_prefix json_path ini_path dotenv_path ini_section
    = Ret (update (update (update (update ∅ ini) dotenv) json) env) /\
  exists config,
    get_config w env_prefix json_path ini_path dotenv_path ini_section = Ret config /\
    forall key,
      config !! key =
      by_priority (env !! key) (json !! key) (dotenv !! key) (ini !! key).
Proof.
  intros Hi Hd Hj He.
  assert (get_config w env_prefix json_path ini_path dotenv_path ini_section
          = Ret (update (update (update (update ∅ ini) dotenv) json) env)) as Hg.
  { unfold get_config, from_path in *. rewrite He.
    destruct (given ini_path), (given dotenv_path), (given json_path);
      repeat match goal with
        | H : _ = Ret _ |- _ => first [rewrite H | injection H as <-]
        end;
      cbn; unfold update; now rewrite ?(left_id_L ∅ (∪)), ?(right_id_L ∅ (∪)). }
  split; [exact Hg|].
  eexists. split; [exact Hg|]. intros key.
  unfold update. rewrite (right_id_L ∅ (∪)). apply lookup_merged.
Qed.

Lemma get_config_priority_witness :
  exists config,
    get_config priority_world "EMAIL_" (Some "c.json") (Some "c.ini") (Some ".env")
      "email" = Ret config /\
    config !! "email" = Some (VStr "env@x.org").
Proof.
  destruct (get_config_priority priority_world "EMAIL_"
              (Some "c.json") (Some "c.ini") (Some ".env") "email"
              {["email" := VStr "ini@x.org"]}
              {["email" := VStr "dotenv@x.org"]}
              {["email" := VStr "json@x.org"]}
              {["email" := VStr "env@x.org"]}) as [_ (config & Hc & Hk)];
    try reflexivity.
  exists config. split; [exact Hc|]. rewrite Hk. reflexivity.
Defined.

Example get_config_without_env :
  get_config (World (fun _ => None) (files priority_world)
                (json_load priority_world) (ini_read priority_world))
    "EMAIL_" (Some "c.json") (Some "c.ini") (Some ".env") "email"
  = Ret {["email" := VStr "json@x.org"]}.
Proof. reflexivity. Qed.

Example get_config_without_env_and_json :
  get_config (World (fun _ => None) (files priority_world)
                (json_load priority_world) (ini_read priority_world))
    "EMAIL_" None (Some "c.ini") (Some ".env") "email"
  = Ret {["email" := VStr "dotenv@x.org"]}.
Proof. reflexivity. Qed.

(** ** Missing and malformed sources *)

Lemma load_from_env_returns (w : world) (prefix : string) :
  returns (load_from_env w prefix).
Proof. unfold load_from_env. eexists. reflexivity. Qed.





(** Outside those cases the JSON loader can raise: a document that parses
    to a number makes the test ["smtp_port" in config] raise, and no
    handler of the loader takes a [TypeError]. *)
Lemma load_from_json_number_raises (w : world) (path text : string) (n : Z) :
  files w path = Some (Readable text) ->
  json_load w text = Some (VInt n) ->
  load_from_json w path = Raise TypeError.
Proof. intros Hf Hj. unfold load_from_json. now rewrite Hf, Hj. Qed.

(** ** Attachments *)







(** ** Exceptions *)

(** C4 fails on the code: the attachments are read before the [try]
    statement, so the [OSError] of [open] on a file that is there but
    cannot be read leaves [send_email]; nothing is printed and nothing is
    returned. *)
Lemma send_email_unreadable_attachment_raises (b : behaviour) :
  let o := send_email locked_world b sender_587 ∅ (Address "you@x.org")
             "subject" "body" false (Some ["locked.pdf"]) None None in
  isfile locked_world "locked.pdf" = true /\
  returned o = Raise OSError /\
  printed o = [] /\
  wire o = [].
Proof. cbv zeta. repeat split. Qed.

(** Once the attachments are read, whatever happens in the session ends
    in [True], or in [False] with a printed message. *)
Lemma send_email_returns_after_attach (w : world) (b : behaviour)
    (self : EmailSender) (σ : store) (to_emails : recipients)
    (subject body : string) (html : bool) (attachments : option (list string))
    (cc bcc : option recipients) (attached : list part) :
  attach w attachments [TextPart (if html then "html" else "plain") body]
    = Ret attached ->
  let o := send_email w b self σ to_emails subject body html attachments cc bcc in
  (returned o = Ret true /\ printed o = []) \/
  (returned o = Ret false /\ printed o <> []).
Proof.
  intros Ha. cbv zeta. unfold send_email.
  destruct (add_cc _ _ _ _) as [[σ1 to1] hdrs].
  destruct (add_bcc _ _ _) as [σ2 to2].
  rewrite Ha.
  destruct (session _ _ _ _) as [done [[]|e]]; simpl.
  - now left.
  - right. split; [reflexivity|]. now destruct e.
Qed.

(** ** The session *)

Lemma perform_all_take (b : behaviour) (ops done : list smtp_op) :
  exists k,
    (perform_all b ops done).1 = done ++ take k ops /\
    (forall u, (perform_all b ops done).2 = Ret u -> take k ops = ops).
Proof.
  revert done. induction ops as [|op ops IH]; intros done.
  - exists 0. simpl. now rewrite app_nil_r.
  - simpl. destruct (b done op) as [e|].
    + exists 1. simpl. split; [reflexivity | discriminate].
    + destruct (IH (done ++ [op])) as (k & Hw & Hr).
      exists (S k). simpl. rewrite Hw, <- app_assoc. split; [reflexivity|].
      intros u Hu. now rewrite (Hr u Hu).
Qed.

Lemma with_server_shape (b : behaviour) (open : smtp_op) (body done : list smtp_op) :
  exists k,
    ((with_server b open body done).1 = done ++ take k (open :: body) \/
     (with_server b open body done).1 = done ++ take k (open :: body) ++ [Quit]) /\
    (forall u, (with_server b open body done).2 = Ret u ->
       (with_server b open body done).1 = done ++ (open :: body) ++ [Quit]).
Proof.
  unfold with_server, perform. destruct (b done open) as [e|].
  - exists 1. simpl. split; [now left | discriminate].
  - destruct (perform_all_take b body (done ++ [open])) as (k & Hw & Hr).
    destruct (perform_all b body (done ++ [open])) as [done1 r]. simpl in Hw, Hr.
    exists (S k). subst done1. simpl. rewrite <- !app_assoc. simpl. split.
    + now right.
    + intros u Hu.
      assert (exists u', r = Ret u') as [u' ->].
      { destruct (b _ Quit) as [[]|]; destruct r; try discriminate; eauto. }
      now rewrite (Hr u' eq_refl).
Qed.

Lemma session_shape (b : behaviour) (self : EmailSender) (to_addrs : list string)
    (msg : message) (n : Z) :
  port_number (smtp_port self) = Ret n ->
  let steps := steps_for n self to_addrs msg in
  exists k,
    ((session b self to_addrs msg).1 = take k steps \/
     (session b self to_addrs msg).1 = take k steps ++ [Quit]) /\
    (forall u, (session b self to_addrs msg).2 = Ret u ->
       (session b self to_addrs msg).1 = steps ++ [Quit]).
Proof.
  intros Hn. cbv zeta. unfold session, perform, steps_for. rewrite Hn. simpl.
  destruct (b [] CreateContext) as [e|].
  - exists 1. split; [left; now destruct (n =? 465)%Z | discriminate].
  - destruct (n =? 465)%Z.
    + destruct (with_server_shape b (OpenSSL (smtp_server self) (smtp_port self))
                  [Login (email self) (password self);
                   Sendmail (email self) to_addrs msg] [CreateContext])
        as (k & Hw & Hr).
      exists (S k). split; [exact Hw | exact Hr].
    + destruct (with_server_shape b (OpenPlain (smtp_server self) (smtp_port self))
                  [Ehlo; Starttls; Ehlo; Login (email self) (password self);
                   Sendmail (email self) to_addrs msg] [CreateContext])
        as (k & Hw & Hr).
      exists (S k). split; [exact Hw | exact Hr].
Qed.



(** ** Recipients *)

Lemma extend_read (σ : store) (x : listvar) (more : list string) :
  read (extend σ x more).1 (extend σ x more).2 = read σ x ++ more.
Proof.
  destruct x as [items|l]; simpl; [reflexivity|].
  apply lookup_total_insert_eq.
Qed.

Lemma extend_frame (σ : store) (x : listvar) (more : list string) (l' : loc) :
  x <> Shared l' -> (extend σ x more).1 !! l' = σ !! l'.
Proof.
  destruct x as [items|l]; simpl; intros H; [reflexivity|].
  apply lookup_insert_ne. congruence.
Qed.

Lemma extend_var (σ : store) (x : listvar) (more : list string) :
  match x with
  | Own _ => (extend σ x more).1 = σ /\ exists items, (extend σ x more).2 = Own items
  | Shared l => (extend σ x more).2 = Shared l
  end.
Proof. destruct x; simpl; eauto. Qed.

(** What [add_cc] does, in terms of the entries of [cc]. *)
Lemma add_cc_spec (σ : store) (x : listvar) (hdrs : list (string * string))
    (cc : option recipients) :
  let r := add_cc σ x hdrs cc in
  r.2 = hdrs ++ (if truthy σ cc then [("Cc", Py.join ", " (entries σ cc))] else []) /\
  read r.1.1 r.1.2 = read σ x ++ entries σ cc /\
  (truthy σ cc = false -> r.1.1 = σ /\ r.1.2 = x) /\
  (forall l', x <> Shared l' -> r.1.1 !! l' = σ !! l') /\
  match x with
  | Own _ => r.1.1 = σ /\ exists items, r.1.2 = Own items
  | Shared l => r.1.2 = Shared l
  end.
Proof.
  cbv zeta. unfold add_cc, entries.
  destruct cc as [c|].
  - destruct (truthy σ (Some c)) eqn:Ht.
    + pose proof (extend_read σ x (read σ (as_list c))) as Hr.
      pose proof (extend_var σ x (read σ (as_list c))) as Hv.
      pose proof (fun l' => extend_frame σ x (read σ (as_list c)) l') as Hf.
      destruct (extend σ x (read σ (as_list c))) as [σ1 x1]. simpl in *.
      repeat split; auto; discriminate.
    + simpl. rewrite !app_nil_r. repeat split; auto. destruct x; eauto.
  - simpl. rewrite !app_nil_r. repeat split; auto. destruct x; eauto.
Qed.

Lemma add_bcc_spec (σ : store) (x : listvar) (bcc : option recipients) :
  let r := add_bcc σ x bcc in
  read r.1 r.2 = read σ x ++ entries σ bcc /\
  (forall l', x <> Shared l' -> r.1 !! l' = σ !! l') /\
  match x with
  | Own _ => r.1 = σ
  | Shared l => True
  end.
Proof.
  cbv zeta. unfold add_bcc, entries.
  destruct bcc as [c|].
  - destruct (truthy σ (Some c)) eqn:Ht.
    + pose proof (extend_read σ x (read σ (as_list c))) as Hr.
      pose proof (extend_var σ x (read σ (as_list c))) as Hv.
      pose proof (fun l' => extend_frame σ x (read σ (as_list c)) l') as Hf.
      destruct (extend σ x (read σ (as_list c))) as [σ1 x1]. simpl in *.
      repeat split; auto. destruct x; tauto.
    + simpl. rewrite app_nil_r. repeat split; auto. now destruct x.
  - simpl. rewrite app_nil_r. repeat split; auto. now destruct x.
Qed.

Lemma entries_frame (σ σ1 : store) (x : option recipients) :
  (forall l, x = Some (Addresses l) -> σ1 !! l = σ !! l) ->
  entries σ1 x = entries σ x.
Proof.
  intros H. destruct x as [[s|l]|]; try reflexivity.
  unfold entries, truthy, read, as_list.
  now rewrite !lookup_total_alt, (H l eq_refl).
Qed.

(** The store, the recipient list and the headers the prologue ends
    with. *)
Lemma prologue_spec (self : EmailSender) (σ : store) (to_emails : recipients)
    (subject : string) (cc bcc : option recipients) :
  let r := prologue self σ to_emails subject cc bcc in
  r.2 = expected_headers self σ to_emails subject cc /\
  (~ aliased σ to_emails cc bcc ->
   read r.1.1 r.1.2 =
     read σ (as_list to_emails) ++ entries σ cc ++ entries σ bcc) /\
  (forall l', to_emails <> Addresses l' -> r.1.1 !! l' = σ !! l') /\
  (forall s, to_emails = Address s -> r.1.1 = σ).
Proof.
  cbv zeta. unfold prologue, expected_headers.
  set (hdrs := [("From", email self); _; _]).
  pose proof (add_cc_spec σ (as_list to_emails) hdrs cc) as (Hh & Hr & Hn & Hf & Hv).
  destruct (add_cc σ (as_list to_emails) hdrs cc) as [[σ1 x1] h1]. simpl in *.
  pose proof (add_bcc_spec σ1 x1 bcc) as (Hr2 & Hf2 & Hv2).
  destruct (add_bcc σ1 x1 bcc) as [σ2 x2]. simpl in *.
  split; [exact Hh|]. split; [|split].
  - intros Hal. rewrite Hr2, Hr, <- app_assoc. do 2 f_equal.
    apply entries_frame. intros l ->.
    destruct to_emails as [s|l0]; simpl in *.
    + destruct Hv as [-> _]. reflexivity.
    + destruct (decide (l0 = l)) as [->|Hne].
      * destruct (truthy σ cc) eqn:Ht; [exfalso; now apply Hal|].
        now destruct (Hn eq_refl) as [-> _].
      * apply Hf. congruence.
  - intros l' Hne. destruct to_emails as [s|l0]; simpl in *.
    + destruct Hv as [-> [items ->]]. now rewrite Hv2.
    + subst x1. rewrite Hf2, Hf; congruence.
  - intros s ->. simpl in *. destruct Hv as [-> [items ->]]. exact Hv2.
Qed.

(** A call is its prologue, then the attachments, then the session. *)
Lemma send_email_unfold (w : world) (b : behaviour) (self : EmailSender)
    (σ : store) (to_emails : recipients) (subject body : string) (html : bool)
    (attachments : option (list string)) (cc bcc : option recipients) :
  let p := prologue self σ to_emails subject cc bcc in
  send_email w b self σ to_emails subject body html attachments cc bcc =
  match attach w attachments [TextPart (if html then "html" else "plain") body] with
  | Raise e => {| heap := p.1.1; printed := []; wire := []; returned := Raise e |}
  | Ret attached =>
      let s := session b self (read p.1.1 p.1.2)
                 {| headers := p.2; parts := attached |} in
      {| heap := p.1.1;
         printed := match s.2 with Ret _ => [] | Raise e => report e end;
         wire := s.1;
         returned := Ret (match s.2 with Ret _ => true | Raise _ => false end) |}
  end.
Proof.
  cbv zeta. unfold send_email, prologue.
  destruct (add_cc _ _ _ _) as [[σ1 x1] h1].
  destruct (add_bcc _ _ _) as [σ2 x2]. simpl.
  destruct (attach _ _ _) as [attached|e]; [|reflexivity].
  now destruct (session _ _ _ _) as [done [u|e]].
Qed.

Lemma in_take_or_quit (op : smtp_op) (k : nat) (steps done : list smtp_op) :
  done = take k steps \/ done = take k steps ++ [Quit] ->
  In op done -> In op steps \/ op = Quit.
Proof.
  intros [-> | ->] Hin.
  - left. rewrite <- (firstn_skipn k steps). apply in_or_app. now left.
  - apply in_app_or in Hin as [Hin | [<- | []]]; [left | now right].
    rewrite <- (firstn_skipn k steps). apply in_or_app. now left.
Qed.

(** The only transmission a session asks for is the one of the stored
    address, the recipient list and the message it was given. *)
Lemma session_sendmail (b : behaviour) (self : EmailSender)
    (to_addrs : list string) (msg : message)
    (from_addr : string) (rcpts : list string) (m : message) :
  In (Sendmail from_addr rcpts m) (session b self to_addrs msg).1 ->
  from_addr = email self /\ rcpts = to_addrs /\ m = msg.
Proof.
  destruct (port_number (smtp_port self)) as [n|e] eqn:Hn.
  - destruct (session_shape b self to_addrs msg n Hn) as (k & Hw & _).
    intros Hin. destruct (in_take_or_quit _ _ _ _ Hw Hin) as [Hs | Hq];
      [|discriminate].
    unfold steps_for, ssl_steps, starttls_steps in Hs.
    destruct (n =? 465)%Z; simpl in Hs;
      repeat (destruct Hs as [Hs | Hs]; [try discriminate|]);
      try contradiction; now inversion Hs.
  - unfold session, perform. rewrite Hn.
    destruct (b [] CreateContext); simpl; intros [H | []]; discriminate.
Qed.



Lemma send_email_sendmail (w : world) (b : behaviour) (self : EmailSender)
    (σ : store) (to_emails : recipients) (subject body : string) (html : bool)
    (attachments : option (list string)) (cc bcc : option recipients)
    (from_addr : string) (rcpts : list string) (m : message) :
  In (Sendmail from_addr rcpts m)
     (wire (send_email w b self σ to_emails subject body html attachments cc bcc)) ->
  let p := prologue self σ to_emails subject cc bcc in
  from_addr = email self /\ rcpts = read p.1.1 p.1.2 /\ headers m = p.2.
Proof.
  rewrite send_email_unfold. cbv zeta.
  destruct (attach _ _ _) as [attached|e]; simpl; [|contradiction].
  intros Hin. apply session_sendmail in Hin as (-> & -> & ->). now simpl.
Qed.

(** C6, as the code has it. Whatever a call transmits is sent from the
    stored address, under the headers From, To (the primary recipients
    joined by a comma and a space), Subject and, only when CC is given
    and not empty, Cc; no header depends on [bcc]. The envelope is the
    primary recipients, then the CC entries, then the BCC entries, unless
    [bcc] is the very list object passed as [to_emails] while there are
    CC entries. *)
Theorem send_email_envelope_and_headers (w : world) (b : behaviour)
    (self : EmailSender) (σ : store) (to_emails : recipients)
    (subject body : string) (html : bool) (attachments : option (list string))
    (cc bcc : option recipients)
    (from_addr : string) (rcpts : list string) (m : message) :
  In (Sendmail from_addr rcpts m)
     (wire (send_email w b self σ to_emails subject body html attachments cc bcc)) ->
  from_addr = email self /\
  headers m =
    [("From", email self);
     ("To", Py.join ", " (read σ (as_list to_emails)));
     ("Subject", subject)] ++
    (if truthy σ cc then [("Cc", Py.join ", " (entries σ cc))] else []) /\
  (~ aliased σ to_emails cc bcc ->
   rcpts = read σ (as_list to_emails) ++ entries σ cc ++ entries σ bcc).
Proof.
  intros Hin. apply send_email_sendmail in Hin as (Hf & Hr & Hh).
  pose proof (prologue_spec self σ to_emails subject cc bcc) as (Hh' & Hr' & _).
  split; [exact Hf|]. split.
  - rewrite Hh, Hh'. reflexivity.
  - intros Hal. rewrite Hr. now apply Hr'.
Qed.

Lemma send_email_envelope_and_headers_witness :
  exists m,
    In (Sendmail "me@x.org" ["a@x.org"; "c@x.org"; "b@x.org"] m)
       (wire (send_email bare_world cooperative sender_587 two_lists (Addresses 0)
                "subject" "body" false None (Some (Addresses 1))
                (Some (Address "b@x.org")))) /\
    headers m = [("From", "me@x.org"); ("To", "a@x.org");
                 ("Subject", "subject"); ("Cc", "c@x.org")] /\
    ["a@x.org"; "c@x.org"; "b@x.org"] =
      two_lists !!! 0 ++ entries two_lists (Some (Addresses 1)) ++
      entries two_lists (Some (Address "b@x.org")).
Proof.
  set (m := {| headers := [("From", "me@x.org"); ("To", "a@x.org");
                           ("Subject", "subject"); ("Cc", "c@x.org")];
               parts := [TextPart "plain" "body"] |}).
  exists m.
  assert (In (Sendmail "me@x.org" ["a@x.org"; "c@x.org"; "b@x.org"] m)
            (wire (send_email bare_world cooperative sender_587 two_lists
                     (Addresses 0) "subject" "body" false None
                     (Some (Addresses 1)) (Some (Address "b@x.org"))))) as Hin.
  { vm_compute. do 6 right. left. reflexivity. }
  split; [exact Hin|].
  destruct (send_email_envelope_and_headers _ _ _ _ _ _ _ _ _ _ _ _ _ _ Hin)
    as (_ & Hh & Hr).
  split; [exact Hh|]. apply Hr. intros [].
Defined.

(** C6, as the spec has it, fails when [bcc] is the list passed as
    [to_emails]: the list has grown by the CC entries when it is added to
    itself, and the CC recipient is in the envelope twice. *)
Lemma send_email_envelope_aliased_bcc :
  exists m,
    In (Sendmail "me@x.org" ["a@x.org"; "c@x.org"; "a@x.org"; "c@x.org"] m)
       (wire (send_email bare_world cooperative sender_587 two_lists (Addresses 0)
                "subject" "body" false None (Some (Addresses 1))
                (Some (Addresses 0)))) /\
    ["a@x.org"; "c@x.org"; "a@x.org"; "c@x.org"] <>
      two_lists !!! 0 ++ two_lists !!! 1 ++ two_lists !!! 0.
Proof.
  eexists. split.
  - vm_compute. do 6 right. left. reflexivity.
  - vm_compute. discriminate.
Qed.

(** C10, as the code has it. A list passed as [to_emails] is extended in
    place: after the call, whether it returned or raised, the caller's
    list holds its former entries, then the CC entries, then the BCC
    entries, unless [bcc] is that same list object while there are CC
    entries; no other list object has changed. A [str] passed as
    [to_emails] leaves the store as it was. *)
Theorem send_email_extends_caller_list (w : world) (b : behaviour)
    (self : EmailSender) (σ : store) (l : loc)
    (subject body : string) (html : bool) (attachments : option (list string))
    (cc bcc : option recipients) :
  let o := send_email w b self σ (Addresses l) subject body html attachments
             cc bcc in
  (~ aliased σ (Addresses l) cc bcc ->
   heap o !!! l = σ !!! l ++ entries σ cc ++ entries σ bcc) /\
  (forall l', l' <> l -> heap o !! l' = σ !! l') /\
  (forall s,
     heap (send_email w b self σ (Address s) subject body html attachments cc bcc)
       = σ).
Proof.
  cbv zeta.
  assert (forall to_emails,
            heap (send_email w b self σ to_emails subject body html attachments
                    cc bcc) = (prologue self σ to_emails subject cc bcc).1.1) as Hh.
  { intros to_emails. rewrite send_email_unfold. cbv zeta.
    now destruct (attach _ _ _). }
  split; [|split].
  - intros Hal. rewrite Hh.
    pose proof (prologue_spec self σ (Addresses l) subject cc bcc) as (_ & Hr & _).
    specialize (Hr Hal).
    assert ((prologue self σ (Addresses l) subject cc bcc).1.2 = Shared l) as Hv.
    { unfold prologue.
      pose proof (add_cc_spec σ (as_list (Addresses l))
                    [("From", email self);
                     ("To", Py.join ", " (read σ (as_list (Addresses l))));
                     ("Subject", subject)] cc) as (_ & _ & _ & _ & Hv).
      destruct (add_cc _ _ _ _) as [[σ1 x1] h1]. simpl in Hv. subst x1.
      unfold add_bcc. destruct bcc as [c|]; [|reflexivity].
      now destruct (truthy σ1 (Some c)). }
    rewrite Hv in Hr. exact Hr.
  - intros l' Hne. rewrite Hh.
    pose proof (prologue_spec self σ (Addresses l) subject cc bcc) as (_ & _ & Hf & _).
    apply Hf. congruence.
  - intros s. rewrite Hh.
    pose proof (prologue_spec self σ (Address s) subject cc bcc) as (_ & _ & _ & Ho).
    now apply (Ho s).
Qed.

Lemma send_email_extends_caller_list_witness :
  heap (send_email bare_world cooperative sender_587 two_lists (Addresses 0)
          "subject" "body" false None (Some (Addresses 1))
          (Some (Address "b@x.org"))) !!! 0
  = ["a@x.org"; "c@x.org"; "b@x.org"].
Proof.
  refine (proj1 (send_email_extends_caller_list bare_world cooperative sender_587
            two_lists 0 "subject" "body" false None (Some (Addresses 1))
            (Some (Address "b@x.org"))) _).
  intros [].
Defined.

(** C10, as the claim has it, fails when [bcc] is the list passed as
    [to_emails]: the caller's list ends as its entries and the CC entries,
    twice over. *)
Lemma send_email_aliased_bcc_doubles_list :
  heap (send_email bare_world cooperative sender_587 two_lists (Addresses 0)
          "subject" "body" false None (Some (Addresses 1))
          (Some (Addresses 0))) !!! 0
  = ["a@x.org"; "c@x.org"; "a@x.org"; "c@x.org"] /\
  ["a@x.org"; "c@x.org"; "a@x.org"; "c@x.org"] <>
    two_lists !!! 0 ++ two_lists !!! 1 ++ two_lists !!! 0.
Proof. split; [reflexivity | vm_compute; discriminate]. Qed.

(** ** Templates *)

#[local] Arguments Ascii.eqb : simpl never.
#[local] Arguments String.append : simpl nomatch.

Lemma replace_from_skip (old new : string) (n : nat) (s : string) :
  Py.replace_from old new n s = Py.replace_from old new 0 (Py.drop n s).
Proof.
  revert n. induction s as [|c s IH]; intros [|n]; try reflexivity.
  simpl. apply IH.
Qed.

(** The equation of [str.replace] for a text to find that is not empty. *)
Lemma replace_cons (a : ascii) (old new : string) (c : ascii) (s : string) :
  Py.replace (String a old) new (String c s) =
  if Py.startswith (String a old) (String c s)
  then new +:+ Py.replace (String a old) new (Py.drop (String.length old) s)
  else String c (Py.replace (String a old) new s).
Proof.
  unfold Py.replace. cbn [Py.replace_from].
  destruct (Py.startswith (String a old) (String c s)); [|reflexivity].
  replace (String.length (String a old) - 1) with (String.length old)
    by (cbn [String.length]; lia).
  now rewrite replace_from_skip.
Qed.

Lemma replace_absent (old new s : string) :
  Py.contains old s = false -> Py.replace old new s = s.
Proof.
  destruct old as [|a old]; [now destruct s|].
  induction s as [|c s IH]; intros H; [reflexivity|].
  cbn [Py.contains] in H. apply orb_false_iff in H as [Hs Hc].
  rewrite replace_cons, Hs. now rewrite (IH Hc).
Qed.


Lemma startswith_brace (k s : string) (c : ascii) :
  Ascii.eqb c "{" = false -> Py.startswith (placeholder k) (String c s) = false.
Proof.
  intros H. unfold placeholder. simpl. rewrite Ascii.eqb_sym in H. now rewrite H.
Qed.

(** Two placeholders with different names do not start at the same
    place. *)
Lemma startswith_other_placeholder (k p t : string) :
  no_brace k = true -> no_brace p = true -> k <> p ->
  Py.startswith (k +:+ "}") (p +:+ String "}" t) = false.
Proof.
  revert p. induction k as [|a k IH]; intros [|c p] Hk Hp Hne; simpl in *.
  - congruence.
  - apply andb_prop in Hp as [Hp _]. apply andb_prop in Hp as [_ Hp].
    apply negb_true_iff in Hp. rewrite Ascii.eqb_sym in Hp. now rewrite Hp.
  - apply andb_prop in Hk as [Hk _]. apply andb_prop in Hk as [_ Hk].
    apply negb_true_iff in Hk. now rewrite Hk.
  - apply andb_prop in Hk as [_ Hk]. apply andb_prop in Hp as [_ Hp].
    destruct (Ascii.eqb_spec a c) as [->|]; [|reflexivity].
    apply IH; auto. congruence.
Qed.

Lemma placeholder_cons (k : string) : placeholder k = String "{" (k +:+ "}").
Proof. reflexivity. Qed.

Lemma placeholder_app (p t : string) :
  placeholder p +:+ t = String "{" (p +:+ String "}" t).
Proof.
  unfold placeholder. simpl. f_equal.
  induction p as [|c p IH]; simpl; [reflexivity | now rewrite IH].
Qed.





Lemma no_brace_cons (c : ascii) (s : string) :
  no_brace (String c s) = true ->
  Ascii.eqb c "{" = false /\ Ascii.eqb c "}" = false /\ no_brace s = true.
Proof.
  simpl. intros H. apply andb_prop in H as [H Hs]. apply andb_prop in H as [H1 H2].
  now rewrite negb_true_iff in H1, H2.
Qed.


Section Replace.

Variables k v : string.

(** Text without braces is copied as it is. *)
Lemma replace_copies (u t : string) :
  no_brace u = true ->
  Py.replace (placeholder k) v (u +:+ t) =
    u +:+ Py.replace (placeholder k) v t.
Proof.
  induction u as [|c u IH]; intros Hu; [reflexivity|].
  apply no_brace_cons in Hu as (Hc & _ & Hu).
  rewrite placeholder_cons. cbn [String.append].
  rewrite replace_cons, <- placeholder_cons, (startswith_brace _ _ _ Hc).
  now rewrite (IH Hu).
Qed.

(** The placeholder itself becomes the value. *)
Lemma replace_here (t : string) :
  Py.replace (placeholder k) v (placeholder k +:+ t) =
    v +:+ Py.replace (placeholder k) v t.
Proof.
  rewrite placeholder_app. rewrite placeholder_cons at 1.
  rewrite replace_cons, <- placeholder_cons, <- placeholder_app.
  rewrite startswith_app.
  replace (k +:+ String "}" t) with ((k +:+ "}") +:+ t).
  - now rewrite drop_app.
  - clear. induction k as [|c k' IH]; simpl; [reflexivity | now rewrite IH].
Qed.

(** Literal substitution: in brace-free text around placeholders of
    [k], each placeholder is replaced by [v] and the text stays. *)
Lemma replace_literal (pre t : string) :
  no_brace pre = true ->
  Py.replace (placeholder k) v (pre +:+ placeholder k +:+ t) =
    pre +:+ v +:+ Py.replace (placeholder k) v t.
Proof. intros H. now rewrite (replace_copies _ _ H), replace_here. Qed.

Variable p : string.
Hypothesis k_name : no_brace k = true.
Hypothesis p_name : no_brace p = true.
Hypothesis other : k <> p.






End Replace.

Lemma substitute_cons (template k v : string) (vars : list (string * string)) :
  substitute template ((k, v) :: vars) =
  substitute (Py.replace (placeholder k) v template) vars.
Proof. reflexivity. Qed.





(** ** More on the loaders *)

Lemma update_empty (config : fragment) : update ∅ config = config.
Proof. unfold update. apply (right_id_L ∅ (∪)). Qed.


Lemma all_str_empty : all_str ∅.
Proof. intros k v H. now rewrite lookup_empty in H. Qed.

Lemma all_str_insert (config : fragment) (key s : string) :
  all_str config -> all_str (<[key := VStr s]> config).
Proof.
  intros H k v Hk. destruct (decide (key = k)) as [->|Hne].
  - rewrite lookup_insert_eq in Hk. injection Hk as <-. eauto.
  - rewrite lookup_insert_ne in Hk by exact Hne. eauto.
Qed.

Lemma all_str_well_typed (config : fragment) :
  all_str config -> well_typed config.
Proof. intros H k v Hk. left. eauto. Qed.

Lemma convert_smtp_port_well_typed (config : fragment) :
  all_str config -> well_typed (convert_smtp_port config).
Proof.
  intros H. unfold convert_smtp_port.
  destruct (config !! "smtp_port") as [[]|] eqn:Hp;
    try (now apply all_str_well_typed).
  destruct (Py.int s) as [n|]; [|now apply all_str_well_typed].
  intros k v Hk. destruct (decide ("smtp_port" = k)) as [<-|Hne].
  - rewrite lookup_insert_eq in Hk. injection Hk as <-. right. eauto.
  - rewrite lookup_insert_ne in Hk by exact Hne. left. eauto.
Qed.

Lemma dotenv_line_all_str (prefix : string) (config : fragment) (line : string) :
  all_str config -> all_str (dotenv_line prefix config line).
Proof.
  intros H. unfold dotenv_line. cbv zeta.
  destruct (is_empty _ || _); [exact H|].
  destruct (if Py.contains "=" _ then _ else _) as [[key v]|]; [|exact H].
  destruct (Py.startswith prefix key); [|exact H].
  now apply all_str_insert.
Qed.

Lemma fold_dotenv_all_str (prefix : string) (lines : list string)
    (config : fragment) :
  all_str config -> all_str (fold_left (dotenv_line prefix) lines config).
Proof.
  revert config. induction lines as [|l lines IH]; intros config H; [exact H|].
  simpl. apply IH. now apply dotenv_line_all_str.
Qed.

Lemma copy_options_all_str (options : ini_section) (config : fragment) :
  all_str config -> all_str (copy_options config options).1.
Proof.
  revert config. induction options as [|[key [v|]] options IH]; intros config H;
    simpl; [exact H | | exact H].
  apply IH. now apply all_str_insert.
Qed.

(** X2. Whatever the environment, INI and dotenv loaders return holds
    strings only, but for [smtp_port], which is an integer when it could
    be converted. *)
Theorem loaders_fragment_types (w : world) :
  (forall prefix config, load_from_env w prefix = Ret config -> well_typed config) /\
  (forall path section config,
     load_from_ini w path section = Ret config -> well_typed config) /\
  (forall path prefix config,
     load_from_dotenv w path prefix = Ret config -> well_typed config).
Proof.
  split; [|split].
  - intros prefix config H. unfold load_from_env in H. injection H as <-.
    assert (forall key v c, all_str c -> all_str (set_if_given key v c)) as Hset.
    { intros key [[|a s]|] c Hc; simpl; try exact Hc. now apply all_str_insert. }
    match goal with
    | |- well_typed (match ?p with _ => _ end) =>
        destruct p as [[|a s]|]
    end; try (apply all_str_well_typed; repeat apply Hset; apply all_str_empty).
    destruct (Py.int (String a s)) as [n|];
      [|apply all_str_well_typed; repeat apply Hset; apply all_str_empty].
    intros k v Hk. destruct (decide ("smtp_port" = k)) as [<-|Hne].
    + rewrite lookup_insert_eq in Hk. injection Hk as <-. right. eauto.
    + rewrite lookup_insert_ne in Hk by exact Hne. left.
      revert Hk. apply (Hset _ _ _ (Hset _ _ _ (Hset _ _ _ all_str_empty))).
  - intros path section config H. unfold load_from_ini in H.
    destruct (files w path) as [f|];
      [|injection H as <-; apply all_str_well_typed, all_str_empty].
    destruct (match f with Unreadable => _ | Readable text => _ end) as [parser|];
      [|injection H as <-; apply all_str_well_typed, all_str_empty].
    destruct (parser section) as [options|];
      [|injection H as <-; apply all_str_well_typed, all_str_empty].
    pose proof (copy_options_all_str options ∅ all_str_empty) as Hc.
    destruct (copy_options ∅ options) as [raw []]; injection H as <-; simpl in Hc.
    + now apply convert_smtp_port_well_typed.
    + now apply all_str_well_typed.
  - intros path prefix config H. unfold load_from_dotenv in H.
    destruct (files w path) as [[|text]|]; injection H as <-;
      try (apply all_str_well_typed, all_str_empty).
    apply convert_smtp_port_well_typed, fold_dotenv_all_str, all_str_empty.
Qed.

Lemma loaders_fragment_types_witness :
  well_typed {["smtp_port" := VInt 587]} /\
  well_typed {["smtp_port" := VStr "abc"]}.
Proof.
  destruct (loaders_fragment_types (port_world "587")) as (Henv & _ & _).
  destruct (loaders_fragment_types (port_world "abc")) as (_ & Hini & _).
  split.
  - apply (Henv "EMAIL_"). reflexivity.
  - apply (Hini "config.ini" "email"). reflexivity.
Defined.

(** ** The keys of a dotenv fragment *)

Lemma lower_char_idem (c : ascii) :
  Py.lower_char (Py.lower_char c) = Py.lower_char c.
Proof.
  destruct c as [[] [] [] [] [] [] [] []]; reflexivity.
Qed.

Lemma lower_idem (s : string) : Py.lower (Py.lower s) = Py.lower s.
Proof.
  induction s as [|c s IH]; [reflexivity|].
  simpl. now rewrite lower_char_idem, IH.
Qed.

Lemma dotenv_line_keys (prefix : string) (config : fragment) (line : string) :
  dotenv_keys config -> dotenv_keys (dotenv_line prefix config line).
Proof.
  intros H. unfold dotenv_line. cbv zeta.
  destruct (is_empty _ || _); [exact H|].
  destruct (if Py.contains "=" _ then _ else _) as [[key v]|]; [|exact H].
  destruct (Py.startswith prefix key); [|exact H].
  intros k Hk.
  match type of Hk with
  | is_Some (<[?key' := _]> _ !! _) => destruct (decide (key' = k)) as [<-|Hne]
  end.
  - destruct (String.eqb_spec (Py.lower (Py.drop (String.length prefix) key))
                "address") as [E|E].
    + split; [reflexivity | discriminate].
    + split; [apply lower_idem | exact E].
  - rewrite lookup_insert_ne in Hk by exact Hne. now apply H.
Qed.

Lemma convert_smtp_port_is_Some (config : fragment) (k : string) :
  is_Some (convert_smtp_port config !! k) -> is_Some (config !! k).
Proof.
  unfold convert_smtp_port.
  destruct (config !! "smtp_port") as [[]|] eqn:Hp; try (intros H; exact H).
  destruct (Py.int s); [|intros H; exact H].
  destruct (decide ("smtp_port" = k)) as [<-|Hne].
  - intros _. rewrite Hp. eauto.
  - now rewrite lookup_insert_ne.
Qed.

(** X3. Every key of a fragment read from a dotenv file is in lower case,
    and [address] is never one of them: it has become [email]. *)
Theorem load_from_dotenv_keys (w : world) (path prefix : string)
    (config : fragment) (k : string) :
  load_from_dotenv w path prefix = Ret config ->
  is_Some (config !! k) ->
  Py.lower k = k /\ k <> "address".
Proof.
  unfold load_from_dotenv. intros H Hk.
  assert (dotenv_keys ∅) as H0.
  { intros k' Hk'. rewrite lookup_empty in Hk'. now destruct Hk'. }
  destruct (files w path) as [[|text]|]; injection H as <-;
    try (now apply H0).
  apply convert_smtp_port_is_Some in Hk. revert k Hk.
  generalize (Py.lines text). intros lines.
  generalize H0. generalize (∅ : fragment).
  induction lines as [|l lines IH]; intros config Hc; [exact Hc|].
  simpl. apply IH. now apply dotenv_line_keys.
Qed.

Lemma load_from_dotenv_keys_witness :
  Py.lower "email" = "email" /\ "email" <> "address".
Proof.
  apply (load_from_dotenv_keys dotenv_world ".env" "EMAIL_"
           {["email" := VStr "x@y.com"]} "email").
  - reflexivity.
  - rewrite lookup_singleton_eq. eauto.
Defined.

(** ** A dotenv file read back *)











(** ** The options of an INI section *)




(** ** What the JSON loader passes on *)



(** ** Errors and empty paths in [get_config] *)



(** X8. A path given as the empty string counts as not given, and
    without any file path [get_config] returns what [load_from_env]
    returns. *)
Theorem get_config_without_files (w : world) (env_prefix : string)
    (json_path ini_path dotenv_path : option string) (ini_section : string) :
  given json_path = None -> given ini_path = None -> given dotenv_path = None ->
  get_config w env_prefix json_path ini_path dotenv_path ini_section
    = load_from_env w env_prefix.
Proof.
  intros Hj Hi Hd. unfold get_config. rewrite Hj, Hi, Hd.
  destruct (load_from_env_returns w env_prefix) as [env ->].
  cbn. now rewrite !update_empty.
Qed.

Lemma get_config_without_files_witness :
  get_config (port_world "587") "EMAIL_" (Some "") None (Some "") "email"
    = Ret {["smtp_port" := VInt 587]}.
Proof.
  rewrite (get_config_without_files (port_world "587") "EMAIL_"
             (Some "") None (Some "") "email" eq_refl eq_refl eq_refl).
  reflexivity.
Defined.

(** ** The parts of the message *)

Lemma attach_files_ret (w : world) (paths : list string) (attached r : list part) :
  attach_files w paths attached = Ret r ->
  r = attached ++ attached_parts w paths.
Proof.
  revert attached. induction paths as [|p paths IH]; intros attached H.
  - simpl in H. injection H as <-. unfold attached_parts. simpl.
    now rewrite app_nil_r.
  - simpl in H. unfold attached_parts, readable_data in *. simpl.
    destruct (files w p) as [[|data]|]; simpl.
    + discriminate.
    + rewrite (IH _ H), <- app_assoc. reflexivity.
    + now apply IH.
Qed.

Lemma attach_ret (w : world) (attachments : option (list string))
    (attached r : list part) :
  attach w attachments attached = Ret r ->
  r = attached ++ attached_parts w (default [] attachments).
Proof.
  unfold attach. destruct attachments as [[|p paths]|].
  - intros H. injection H as <-. cbn. now rewrite app_nil_r.
  - intros H. cbn [default]. now apply attach_files_ret.
  - intros H. injection H as <-. cbn. now rewrite app_nil_r.
Qed.

Lemma basename_no_slash (p : string) : Py.contains "/" (Py.basename p) = false.
Proof.
  induction p as [|c p IH]; [reflexivity|].
  cbn [Py.basename]. destruct (Py.contains "/" p) eqn:Hp; [exact IH|].
  destruct (Ascii.eqb_spec c "/") as [->|Hc]; [exact Hp|].
  rewrite contains_char_cons, Hp.
  destruct (Ascii.eqb_spec "/" c) as [<-|]; [contradiction | reflexivity].
Qed.

Lemma in_attached_parts (w : world) (paths : list string) (x : part) :
  In x (attached_parts w paths) ->
  exists p data,
    In p paths /\ files w p = Some (Readable data) /\
    x = attachment_part p data.
Proof.
  unfold attached_parts, readable_data.
  induction paths as [|p paths IH]; simpl; [contradiction|].
  destruct (files w p) as [[|data]|] eqn:Hf; simpl.
  - intros H. destruct (IH H) as (q & d & Hq & Hd & ->). eauto 6.
  - intros [<- | H]; [eauto 6|].
    destruct (IH H) as (q & d & Hq & Hd & ->). eauto 6.
  - intros H. destruct (IH H) as (q & d & Hq & Hd & ->). eauto 6.
Qed.

(** X9. Every message a call transmits carries the body as its first
    part, typed [html] or [plain] by the flag, then one application part
    per listed path that is a file, in the order of the list and once per
    mention; [send_html_email] always types the body [html]. *)
Theorem send_email_message_parts (w : world) (b : behaviour)
    (self : EmailSender) (σ : store) (to_emails : recipients)
    (subject body : string) (html : bool) (attachments : option (list string))
    (cc bcc : option recipients)
    (from_addr : string) (rcpts : list string) (m : message) :
  (In (Sendmail from_addr rcpts m)
      (wire (send_email w b self σ to_emails subject body html attachments
               cc bcc)) ->
   parts m = TextPart (if html then "html" else "plain") body
             :: attached_parts w (default [] attachments)) /\
  (In (Sendmail from_addr rcpts m)
      (wire (send_html_email w b self σ to_emails subject body attachments
               cc bcc)) ->
   parts m = TextPart "html" body
             :: attached_parts w (default [] attachments)).
Proof.
  assert (forall flag,
            In (Sendmail from_addr rcpts m)
               (wire (send_email w b self σ to_emails subject body flag
                        attachments cc bcc)) ->
            parts m = TextPart (if flag then "html" else "plain") body
                      :: attached_parts w (default [] attachments)) as H.
  { intros flag. rewrite send_email_unfold. cbv zeta.
    destruct (attach _ _ _) as [attached|e] eqn:Ha; simpl; [|contradiction].
    intros Hin. apply session_sendmail in Hin as (_ & _ & ->). simpl.
    now rewrite (attach_ret _ _ _ _ Ha). }
  split; [apply H | apply (H true)].
Qed.

Lemma send_email_message_parts_witness :
  parts {| headers := [("From", "me@x.org"); ("To", "you@x.org");
                       ("Subject", "subject")];
           parts := [TextPart "plain" "body";
                     attachment_part "/tmp/out/report.pdf" "%PDF"] |}
  = TextPart "plain" "body"
    :: attached_parts report_world ["missing.pdf"; "/tmp/out/report.pdf"].
Proof.
  apply (proj1 (send_email_message_parts report_world cooperative sender_587 ∅
                  (Address "you@x.org") "subject" "body" false
                  (Some ["missing.pdf"; "/tmp/out/report.pdf"]) None None
                  "me@x.org" ["you@x.org"] _)).
  vm_compute. do 6 right. left. reflexivity.
Defined.

Lemma attached_part_named (w : world) (paths : list string)
    (name data disposition : string) :
  In (ApplicationPart name data disposition) (attached_parts w paths) ->
  Py.contains "/" name = false /\
  exists p,
    In p paths /\ files w p = Some (Readable data) /\
    name = Py.basename p /\
    disposition = "attachment; filename=" +:+ quote +:+ name +:+ quote.
Proof.
  intros Hin. apply in_attached_parts in Hin as (p & d & Hp & Hf & Hx).
  unfold attachment_part in Hx. injection Hx as -> -> ->.
  split; [apply basename_no_slash|]. eauto.
Qed.

(** X10. Each application part of a transmitted message stands for a
    listed path that is a readable file: it holds the content of the file
    and is named, in the part and in its disposition, by the base name of
    the path, in which no slash is left. *)
Theorem send_email_attachment_names (w : world) (b : behaviour)
    (self : EmailSender) (σ : store) (to_emails : recipients)
    (subject body : string) (html : bool) (attachments : option (list string))
    (cc bcc : option recipients)
    (from_addr : string) (rcpts : list string) (m : message)
    (name data disposition : string) :
  In (Sendmail from_addr rcpts m)
     (wire (send_email w b self σ to_emails subject body html attachments
              cc bcc)) ->
  In (ApplicationPart name data disposition) (parts m) ->
  Py.contains "/" name = false /\
  exists p,
    In p (default [] attachments) /\ files w p = Some (Readable data) /\
    name = Py.basename p /\
    disposition = "attachment; filename=" +:+ quote +:+ name +:+ quote.
Proof.
  rewrite send_email_unfold. cbv zeta.
  destruct (attach _ _ _) as [attached|e] eqn:Ha; simpl; [|contradiction].
  intros Hin. apply session_sendmail in Hin as (_ & _ & ->). simpl.
  rewrite (attach_ret _ _ _ _ Ha). intros [H | H]; [discriminate|].
  now apply attached_part_named.
Qed.

Lemma send_email_attachment_names_witness :
  Py.contains "/" "report.pdf" = false /\
  exists p,
    In p ["missing.pdf"; "/tmp/out/report.pdf"] /\
    files report_world p = Some (Readable "%PDF") /\
    "report.pdf" = Py.basename p /\
    "attachment; filename=" +:+ quote +:+ "report.pdf" +:+ quote
      = "attachment; filename=" +:+ quote +:+ "report.pdf" +:+ quote.
Proof.
  refine (send_email_attachment_names report_world cooperative sender_587 ∅
            (Address "you@x.org") "subject" "body" false
            (Some ["missing.pdf"; "/tmp/out/report.pdf"]) None None
            "me@x.org" ["you@x.org"]
            {| headers := [("From", "me@x.org"); ("To", "you@x.org");
                           ("Subject", "subject")];
               parts := [TextPart "plain" "body";
                         attachment_part "/tmp/out/report.pdf" "%PDF"] |}
            "report.pdf" "%PDF"
            ("attachment; filename=" +:+ quote +:+ "report.pdf" +:+ quote) _ _).
  - vm_compute. do 6 right. left. reflexivity.
  - right. left. reflexivity.
Defined.

(** ** When a call raises *)





(** ** The port *)

(** X12. A port kept as a string that [int] rejects ends the call before
    any connection: once the attachments are read and the TLS context is
    there, the call returns [False], has printed the [ValueError], and
    has asked nothing of the network. *)
Theorem send_email_rejects_port_string (w : world) (b : behaviour)
    (self : EmailSender) (σ : store) (to_emails : recipients)
    (subject body : string) (html : bool) (attachments : option (list string))
    (cc bcc : option recipients) (s : string) (attached : list part) :
  smtp_port self = PortStr s ->
  Py.int s = None ->
  attach w attachments [TextPart (if html then "html" else "plain") body]
    = Ret attached ->
  b [] CreateContext = None ->
  let o := send_email w b self σ to_emails subject body html attachments cc bcc in
  returned o = Ret false /\
  printed o = [SayError "Error sending email: " ValueError] /\
  wire o = [CreateContext] /\
  existsb is_network (wire o) = false.
Proof.
  intros Hp Hs Ha Hb. cbv zeta. rewrite send_email_unfold. cbv zeta.
  rewrite Ha. unfold session, perform, port_number. rewrite Hb, Hp, Hs.
  repeat split.
Qed.

Lemma send_email_rejects_port_string_witness :
  returned (send_email bare_world cooperative sender_abc ∅ (Address "you@x.org")
              "subject" "body" false None None None) = Ret false.
Proof.
  apply (send_email_rejects_port_string bare_world cooperative sender_abc ∅
           (Address "you@x.org") "subject" "body" false None None None "abc"
           [TextPart "plain" "body"]); reflexivity.
Defined.

(** ** Around the transmission *)

Lemma with_server_wire (b : behaviour) (open : smtp_op) (body done : list smtp_op) :
  (with_server b open body done).1 = done ++ [open] \/
  exists k, (with_server b open body done).1 = done ++ open :: take k body ++ [Quit].
Proof.
  unfold with_server, perform. destruct (b done open) as [e|]; [now left|].
  right. destruct (perform_all_take b body (done ++ [open])) as (k & Hw & _).
  destruct (perform_all b body (done ++ [open])) as [done1 r]. simpl in Hw.
  exists k. subst done1. simpl. now rewrite <- !app_assoc.
Qed.

Lemma session_wire (b : behaviour) (self : EmailSender) (to_addrs : list string)
    (msg : message) :
  (forall op, In op (session b self to_addrs msg).1 -> is_network op = false) \/
  exists n k,
    port_number (smtp_port self) = Ret n /\
    ((session b self to_addrs msg).1 = take 2 (steps_for n self to_addrs msg) \/
     (session b self to_addrs msg).1 =
       take (2 + k) (steps_for n self to_addrs msg) ++ [Quit]).
Proof.
  unfold session, perform, steps_for. simpl.
  destruct (b [] CreateContext) as [e|].
  { left. simpl. intros op [<- | []]. reflexivity. }
  destruct (port_number (smtp_port self)) as [n|e].
  2:{ left. simpl. intros op [<- | []]. reflexivity. }
  right. exists n.
  destruct (n =? 465)%Z.
  - destruct (with_server_wire b (OpenSSL (smtp_server self) (smtp_port self))
                [Login (email self) (password self);
                 Sendmail (email self) to_addrs msg] [CreateContext])
      as [Hw | [k Hw]].
    + exists 0. split; [reflexivity|]. left. exact Hw.
    + exists k. split; [reflexivity|]. right. exact Hw.
  - destruct (with_server_wire b (OpenPlain (smtp_server self) (smtp_port self))
                [Ehlo; Starttls; Ehlo; Login (email self) (password self);
                 Sendmail (email self) to_addrs msg] [CreateContext])
      as [Hw | [k Hw]].
    + exists 0. split; [reflexivity|]. left. exact Hw.
    + exists k. split; [reflexivity|]. right. exact Hw.
Qed.

Lemma session_sendmail_full (b : behaviour) (self : EmailSender)
    (to_addrs : list string) (msg : message)
    (from_addr : string) (rcpts : list string) (m : message) :
  In (Sendmail from_addr rcpts m) (session b self to_addrs msg).1 ->
  exists n,
    port_number (smtp_port self) = Ret n /\
    (session b self to_addrs msg).1 = steps_for n self to_addrs msg ++ [Quit].
Proof.
  intros Hin.
  destruct (session_wire b self to_addrs msg) as [Hno | (n & k & Hn & Hw)].
  { specialize (Hno _ Hin). discriminate. }
  exists n. split; [exact Hn|].
  destruct Hw as [Hw | Hw]; rewrite Hw in Hin |- *;
    unfold steps_for, ssl_steps, starttls_steps in *;
    destruct (n =? 465)%Z; simpl in Hin.
  - destruct Hin as [H | [H | []]]; discriminate.
  - destruct Hin as [H | [H | []]]; discriminate.
  - destruct k as [|[|k]]; simpl in *; rewrite ?take_nil in *; simpl in *;
      repeat (destruct Hin as [Hin | Hin]; try discriminate);
      try contradiction; reflexivity.
  - destruct k as [|[|[|[|[|k]]]]]; simpl in *; rewrite ?take_nil in *;
      simpl in *;
      repeat (destruct Hin as [Hin | Hin]; try discriminate);
      try contradiction; reflexivity.
Qed.

(** X13. A transmission is the last thing but QUIT that a call asks of
    the transport, and it comes once: when a message was handed to
    [sendmail], the call had created the context, opened the connection
    the port selects, gone through the handshakes of that path and logged
    in with the stored address and password before, and it sent QUIT
    right after. *)
Theorem send_email_transmits_after_login (w : world) (b : behaviour)
    (self : EmailSender) (σ : store) (to_emails : recipients)
    (subject body : string) (html : bool) (attachments : option (list string))
    (cc bcc : option recipients)
    (from_addr : string) (rcpts : list string) (m : message) :
  In (Sendmail from_addr rcpts m)
     (wire (send_email w b self σ to_emails subject body html attachments cc bcc)) ->
  exists n,
    port_number (smtp_port self) = Ret n /\
    wire (send_email w b self σ to_emails subject body html attachments cc bcc) =
      (if (n =? 465)%Z then
         [CreateContext;
          OpenSSL (smtp_server self) (smtp_port self);
          Login (email self) (password self)]
       else
         [CreateContext;
          OpenPlain (smtp_server self) (smtp_port self);
          Ehlo; Starttls; Ehlo;
          Login (email self) (password self)])
      ++ [Sendmail from_addr rcpts m; Quit].
Proof.
  rewrite send_email_unfold. cbv zeta.
  destruct (attach _ _ _) as [attached|e]; simpl; [|contradiction].
  intros Hin. pose proof Hin as Hs.
  apply session_sendmail in Hs as (-> & -> & ->).
  apply session_sendmail_full in Hin as (n & Hn & Hw).
  exists n. split; [exact Hn|]. rewrite Hw.
  unfold steps_for, ssl_steps, starttls_steps. now destruct (n =? 465)%Z.
Qed.

Lemma send_email_transmits_after_login_witness :
  exists n,
    port_number (smtp_port sender_465) = Ret n /\
    wire (send_email bare_world cooperative sender_465 ∅ (Address "you@x.org")
            "subject" "body" false None None None) =
      (if (n =? 465)%Z then
         [CreateContext; OpenSSL "smtp.x.org" (PortInt 465);
          Login "me@x.org" "secret"]
       else
         [CreateContext; OpenPlain "smtp.x.org" (PortInt 465);
          Ehlo; Starttls; Ehlo; Login "me@x.org" "secret"])
      ++ [Sendmail "me@x.org" ["you@x.org"]
            {| headers := [("From", "me@x.org"); ("To", "you@x.org");
                           ("Subject", "subject")];
               parts := [TextPart "plain" "body"] |};
          Quit].
Proof.
  apply (send_email_transmits_after_login bare_world cooperative sender_465 ∅
           (Address "you@x.org") "subject" "body" false None None None).
  vm_compute. do 3 right. left. reflexivity.
Defined.




Lemma send_email_returns_after_attach_witness :
  returned (send_email bare_world login_fails sender_587 ∅ (Address "you@x.org")
              "subject" "body" false None None None) = Ret false /\
  printed (send_email bare_world login_fails sender_587 ∅ (Address "you@x.org")
             "subject" "body" false None None None) <> [].
Proof.
  destruct (send_email_returns_after_attach bare_world login_fails sender_587 ∅
              (Address "you@x.org") "subject" "body" false None None None
              [TextPart "plain" "body"] eq_refl) as [[H _] | H].
  - discriminate H.
  - exact H.
Defined.

(** ** More on templates *)

Lemma append_nil_r (s : string) : s +:+ EmptyString = s.
Proof. induction s as [|c s IH]; simpl; [reflexivity | now rewrite IH]. Qed.

Lemma replace_text (k v u : string) :
  no_brace u = true -> Py.replace (placeholder k) v u = u.
Proof.
  intros Hu. rewrite <- (append_nil_r u) at 1.
  rewrite (replace_copies k v u EmptyString Hu). apply append_nil_r.
Qed.

(** X15. In a template made of texts without braces with the placeholder
    of one variable between them, the substitution of that variable
    replaces every occurrence of the placeholder by the value and leaves
    the texts as they are. *)
Theorem substitute_every_occurrence (name v : string) (texts : list string) :
  Forall (fun u => no_brace u = true) texts ->
  substitute (Py.join (placeholder name) texts) [(name, v)] = Py.join v texts.
Proof.
  intros H. rewrite substitute_cons. change (substitute ?t []) with t.
  induction H as [|u texts Hu Htexts IH]; [reflexivity|].
  destruct texts as [|u' texts].
  - simpl. now apply replace_text.
  - change (Py.join ?sep (u :: u' :: texts))
      with (u +:+ sep +:+ Py.join sep (u' :: texts)).
    rewrite (replace_literal name v u _ Hu). now rewrite IH.
Qed.

Lemma substitute_every_occurrence_witness :
  substitute "Dear {n}, your name is {n}." [("n", "Bo")]
    = "Dear Bo, your name is Bo.".
Proof.
  apply (substitute_every_occurrence "n" "Bo" ["Dear "; ", your name is "; "."]).
  repeat constructor.
Defined.

Lemma placeholder_absent (a b : string) :
  no_brace a = true -> no_brace b = true -> a <> b ->
  Py.contains (placeholder b) (placeholder a) = false.
Proof.
  intros Ha Hb Hne. rewrite (placeholder_cons a). cbn [Py.contains].
  rewrite (placeholder_cons b) at 1. cbn [Py.startswith]. rewrite Ascii.eqb_refl.
  rewrite (startswith_other_placeholder b a EmptyString Hb Ha) by congruence.
  cbn [orb]. clear Hne. induction a as [|c a IH].
  - reflexivity.
  - apply no_brace_cons in Ha as (Hc & _ & Ha).
    cbn [String.append Py.contains]. rewrite (startswith_brace _ _ _ Hc).
    now apply IH.
Qed.

(** X16. The substitutions run one after the other, in the order of the
    dict, each on the result of the one before: a value that is itself
    the placeholder of a later variable is replaced in turn, while the
    same two variables in the other order leave that placeholder in the
    body. *)
Theorem substitute_in_dict_order (a b x : string) :
  no_brace a = true -> no_brace b = true -> a <> b ->
  substitute (placeholder a) [(a, placeholder b); (b, x)] = x /\
  substitute (placeholder a) [(b, x); (a, placeholder b)] = placeholder b.
Proof.
  intros Ha Hb Hne.
  assert (forall k v, Py.replace (placeholder k) v (placeholder k) = v) as Hself.
  { intros k v. rewrite <- (append_nil_r (placeholder k)) at 2.
    rewrite replace_here. apply append_nil_r. }
  split.
  - rewrite !substitute_cons. change (substitute ?t []) with t.
    now rewrite !Hself.
  - rewrite !substitute_cons. change (substitute ?t []) with t.
    rewrite (replace_absent _ _ _ (placeholder_absent a b Ha Hb Hne)).
    apply Hself.
Qed.

Lemma substitute_in_dict_order_witness :
  substitute "{greeting}" [("greeting", "{name}"); ("name", "Bo")] = "Bo" /\
  substitute "{greeting}" [("name", "Bo"); ("greeting", "{name}")] = "{name}".
Proof.
  apply (substitute_in_dict_order "greeting" "name" "Bo");
    [reflexivity | reflexivity | discriminate].
Defined.

(** ** The command line *)

Lemma get_email_config_inl (float_truth : string -> bool) (w : world)
    (dotenv_path : string) (config_file : option string)
    (shown : list line) (config : fragment) :
  Cli.get_email_config float_truth w dotenv_path config_file = (shown, inl config) ->
  shown = [] /\
  Cli.lacks float_truth config "email" = false /\
  Cli.lacks float_truth config "password" = false /\
  exists json_path ini_path dotenv,
    get_config w "EMAIL_" json_path ini_path dotenv "email" = Ret config.
Proof.
  unfold Cli.get_email_config.
  destruct (given config_file) as [f|].
  - destruct (Cli.endswith ".json" (Py.lower f));
      [|destruct (Cli.endswith ".ini" (Py.lower f));
        [|destruct (Cli.endswith ".env" (Py.lower f)); [|discriminate]]];
      (destruct (get_config _ _ _ _ _ _) as [c|e] eqn:Hg; [|discriminate]);
      (destruct (Cli.lacks float_truth c "email") eqn:He; [discriminate|]);
      (destruct (Cli.lacks float_truth c "password") eqn:Hp; [discriminate|]);
      cbn; intros H; injection H as <- <-; eauto 8.
  - destruct (isfile w dotenv_path);
      (destruct (get_config _ _ _ _ _ _) as [c|e] eqn:Hg; [|discriminate]);
      (destruct (Cli.lacks float_truth c "email") eqn:He; [discriminate|]);
      (destruct (Cli.lacks float_truth c "password") eqn:Hp; [discriminate|]);
      cbn; intros H; injection H as <- <-; eauto 8.
Qed.

(** X17. A configuration file whose name ends in none of [.json],
    [.ini] and [.env], whatever the case of its letters, ends the
    program with status 1 before any source is read: the two lines about
    the format are all it prints, whatever the environment and the files
    hold, and the network is not used. *)
Theorem main_unsupported_format (float_truth : string -> bool) (w : world)
    (b : behaviour) (dotenv_path : string) (a : Cli.args) (f : string) :
  given (Cli.config_file a) = Some f ->
  Cli.endswith ".json" (Py.lower f) = false ->
  Cli.endswith ".ini" (Py.lower f) = false ->
  Cli.endswith ".env" (Py.lower f) = false ->
  Cli.main float_truth w b dotenv_path a =
    {| Cli.out := [Say ("Unsupported configuration file format: " +:+ f);
                   Say "Supported formats: .json, .ini, .env"];
       Cli.net := [];
       Cli.ended := Cli.Exit 1 |}.
Proof.
  intros Hf Hj Hi He. unfold Cli.main, Cli.get_email_config.
  now rewrite Hf, Hj, Hi, He.
Qed.

(** X18. The program asks something of the transport only when the
    configuration it found holds an [email] and a [password] that are
    true values, every key of it is a parameter of [EmailSender], and
    every listed attachment is a file. *)
Theorem main_network_needs_credentials (float_truth : string -> bool)
    (w : world) (b : behaviour) (dotenv_path : string) (a : Cli.args) :
  Cli.net (Cli.main float_truth w b dotenv_path a) <> [] ->
  exists config,
    Cli.get_email_config float_truth w dotenv_path (Cli.config_file a)
      = ([], inl config) /\
    Cli.lacks float_truth config "email" = false /\
    Cli.lacks float_truth config "password" = false /\
    dom config ⊆ Cli.parameters /\
    forall p, In p (default [] (Cli.attachment a)) -> isfile w p = true.
Proof.
  unfold Cli.main.
  destruct (Cli.get_email_config _ _ _ _) as [shown [config|e]] eqn:Hg;
    [|intros H; now destruct H].
  destruct (get_email_config_inl _ _ _ _ _ _ Hg) as (-> & He & Hp & _).
  unfold Cli.construct.
  destruct (bool_decide (dom config ⊆ Cli.parameters)) eqn:Hd;
    [|intros H; now destruct H].
  apply bool_decide_eq_true in Hd.
  destruct (match config !! "email" with Some _ => _ | None => _ end)
    as [[sender|]|e]; try (intros H; now destruct H).
  destruct (Cli.list_argument 1 _ _) as [σ1 cc].
  destruct (Cli.list_argument 2 _ _) as [σ2 bcc].
  intros Hnet. exists config. repeat split; try assumption.
  intros p Hin.
  destruct (Cli.attachment a) as [[|q paths]|]; try contradiction.
  cbn [default] in Hin.
  destruct (Cli.first_missing w (q :: paths)) as [m|] eqn:Hm;
    [now destruct Hnet|].
  unfold Cli.first_missing in Hm.
  pose proof (find_none _ _ Hm p Hin) as Hp'. cbn beta in Hp'.
  now apply negb_false_iff in Hp'.
Qed.

Lemma main_unsupported_format_witness :
  Cli.ended (Cli.main any_float cli_world cooperative ".env"
               (cli_args (Some "settings.YAML") None)) = Cli.Exit 1.
Proof.
  rewrite (main_unsupported_format any_float cli_world cooperative ".env"
             (cli_args (Some "settings.YAML") None) "settings.YAML");
    reflexivity.
Defined.

Lemma main_network_needs_credentials_witness :
  exists config,
    Cli.get_email_config any_float cli_world ".env" None = ([], inl config) /\
    Cli.lacks any_float config "email" = false /\
    Cli.lacks any_float config "password" = false /\
    dom config ⊆ Cli.parameters /\
    forall p, In p [] -> isfile cli_world p = true.
Proof.
  apply (main_network_needs_credentials any_float cli_world cooperative ".env"
           (cli_args None None)).
  vm_compute. discriminate.
Defined.

Lemma send_email_true_transmits (w : world) (b : behaviour) (self : EmailSender)
    (σ : store) (to_emails : recipients) (subject body : string) (html : bool)
    (attachments : option (list string)) (cc bcc : option recipients) :
  returned (send_email w b self σ to_emails subject body html attachments cc bcc)
    = Ret true ->
  exists rcpts m pre,
    wire (send_email w b self σ to_emails subject body html attachments cc bcc)
      = pre ++ [Sendmail (email self) rcpts m; Quit] /\
    printed (send_email w b self σ to_emails subject body html attachments cc bcc)
      = [].
Proof.
  rewrite send_email_unfold. cbv zeta.
  destruct (attach _ _ _) as [attached|e]; simpl; [|discriminate].
  set (p := prologue self σ to_emails subject cc bcc).
  destruct (port_number (smtp_port self)) as [n|e] eqn:Hn.
  - destruct (session_shape b self (read p.1.1 p.1.2)
                {| headers := p.2; parts := attached |} n Hn) as (k & _ & Hr).
    destruct (session _ _ _ _) as [done [u|e]]; simpl in *; [|discriminate].
    intros _. rewrite (Hr u eq_refl).
    unfold steps_for, ssl_steps, starttls_steps.
    destruct (n =? 465)%Z; do 2 eexists;
      [exists [CreateContext; OpenSSL (smtp_server self) (smtp_port self);
               Login (email self) (password self)]
      |exists [CreateContext; OpenPlain (smtp_server self) (smtp_port self);
               Ehlo; Starttls; Ehlo; Login (email self) (password self)]];
      split; reflexivity.
  - unfold session, perform. rewrite Hn.
    destruct (b [] CreateContext); simpl; discriminate.
Qed.

(** X19. The program returns from [main], and so ends with status 0,
    only after a session in which the message was handed over and QUIT
    was sent; it then prints the line of success last. Its other ends
    are status 1, an exception, or a configuration outside the model. *)
Theorem main_returns_after_transmission (float_truth : string -> bool)
    (w : world) (b : behaviour) (dotenv_path : string) (a : Cli.args) :
  Cli.ended (Cli.main float_truth w b dotenv_path a) = Cli.Returned ->
  exists from_addr rcpts m pre,
    Cli.net (Cli.main float_truth w b dotenv_path a)
      = pre ++ [Sendmail from_addr rcpts m; Quit] /\
    Cli.out (Cli.main float_truth w b dotenv_path a)
      = [Say "Email sent successfully!"].
Proof.
  unfold Cli.main.
  destruct (Cli.get_email_config _ _ _ _) as [shown [config|e]] eqn:Hg.
  2:{ cbn. intros ->. unfold Cli.get_email_config in Hg.
      destruct (given (Cli.config_file a)) as [f|];
        repeat match type of Hg with
          | context [if ?c then _ else _] => destruct c
          | context [get_config ?a1 ?a2 ?a3 ?a4 ?a5 ?a6] =>
              destruct (get_config a1 a2 a3 a4 a5 a6)
          end; discriminate. }
  destruct (get_email_config_inl _ _ _ _ _ _ Hg) as (-> & _).
  destruct (Cli.construct config) as [[sender|]|e]; try discriminate.
  destruct (Cli.list_argument 1 _ _) as [σ1 cc].
  destruct (Cli.list_argument 2 _ _) as [σ2 bcc].
  destruct (match Cli.attachment a with Some _ => _ | None => _ end)
    as [said [attachments|]] eqn:Hc; [|discriminate].
  assert (said = []) as ->.
  { destruct (Cli.attachment a) as [[|q paths]|];
      try (injection Hc as <- _; reflexivity).
    destruct (Cli.first_missing w (q :: paths)); [discriminate|].
    now injection Hc as <- _. }
  cbv zeta.
  destruct (returned (send_email w b sender σ2 (Addresses 0) (Cli.subject a)
                        (Cli.body a) (Cli.html a) attachments cc bcc))
    as [[]|e] eqn:Hr; try discriminate.
  intros _. cbn [Cli.net Cli.out].
  destruct (send_email_true_transmits _ _ _ _ _ _ _ _ _ _ _ Hr)
    as (rcpts & m & pre & Hw & Hp).
  rewrite Hw, Hp. eauto 6.
Qed.

Lemma main_returns_after_transmission_witness :
  exists from_addr rcpts m pre,
    Cli.net (Cli.main any_float cli_world cooperative ".env" (cli_args None None))
      = pre ++ [Sendmail from_addr rcpts m; Quit] /\
    Cli.out (Cli.main any_float cli_world cooperative ".env" (cli_args None None))
      = [Say "Email sent successfully!"].
Proof.
  apply (main_returns_after_transmission any_float cli_world cooperative ".env"
           (cli_args None None)).
  reflexivity.
Defined.

(** X20. [EmailSender] is built from all the items of the configuration:
    one key that is not a parameter of its constructor, such as a further
    variable with the prefix in a dotenv file or a further member of a
    JSON object, ends the program with a [TypeError] before anything is
    sent, although the credentials are complete. *)
Theorem main_unexpected_key (float_truth : string -> bool) (w : world)
    (b : behaviour) (dotenv_path : string) (a : Cli.args)
    (shown : list line) (config : fragment) (key : string) :
  Cli.get_email_config float_truth w dotenv_path (Cli.config_file a)
    = (shown, inl config) ->
  is_Some (config !! key) ->
  key ∉ Cli.parameters ->
  Cli.main float_truth w b dotenv_path a =
    {| Cli.out := []; Cli.net := []; Cli.ended := Cli.Uncaught TypeError |}.
Proof.
  intros Hg Hk Hno. unfold Cli.main. rewrite Hg.
  destruct (get_email_config_inl _ _ _ _ _ _ Hg) as (-> & _).
  unfold Cli.construct.
  rewrite bool_decide_eq_false_2; [reflexivity|].
  intros Hsub. apply Hno, Hsub. now apply elem_of_dom.
Qed.

Lemma main_unexpected_key_witness :
  Cli.main any_float cli_extra_world cooperative ".env"
    (cli_args (Some "mail.env") None) =
  {| Cli.out := []; Cli.net := []; Cli.ended := Cli.Uncaught TypeError |}.
Proof.
  apply (main_unexpected_key any_float cli_extra_world cooperative ".env"
           (cli_args (Some "mail.env") None) []
           (<["email" := VStr "me@x.org"]>
            (<["password" := VStr "secret"]> {["from_name" := VStr "Me"]}))
           "from_name").
  - reflexivity.
  - vm_compute. eauto.
  - vm_compute. intros H. discriminate H.
Defined.

(** X21. With a complete configuration, a listed attachment that is not
    a file ends the program with status 1 before the sender is used: it
    prints the name of the first such path and asks nothing of the
    transport. *)
Theorem main_missing_attachment (float_truth : string -> bool) (w : world)
    (b : behaviour) (dotenv_path : string) (a : Cli.args)
    (shown : list line) (config : fragment) (sender : EmailSender)
    (paths : list string) (p : string) :
  Cli.get_email_config float_truth w dotenv_path (Cli.config_file a)
    = (shown, inl config) ->
  Cli.construct config = Ret (Some sender) ->
  Cli.attachment a = Some paths ->
  In p paths -> isfile w p = false ->
  exists before q after,
    paths = before ++ q :: after /\
    (forall x, In x before -> isfile w x = true) /\
    isfile w q = false /\
    Cli.main float_truth w b dotenv_path a =
      {| Cli.out := [Say ("Error: Attachment file not found: " +:+ q)];
         Cli.net := [];
         Cli.ended := Cli.Exit 1 |}.
Proof.
  intros Hg Hc Ha Hin Hp. unfold Cli.main. rewrite Hg, Hc, Ha.
  destruct (get_email_config_inl _ _ _ _ _ _ Hg) as (-> & _).
  destruct (Cli.list_argument 1 _ _) as [σ1 cc].
  destruct (Cli.list_argument 2 _ _) as [σ2 bcc].
  destruct paths as [|x paths]; [contradiction|].
  assert (exists before q after,
            x :: paths = before ++ q :: after /\
            (forall y, In y before -> isfile w y = true) /\
            isfile w q = false /\
            Cli.first_missing w (x :: paths) = Some q)
    as (before & q & after & Hs & Hb & Hq & Hf).
  { clear -Hin Hp. revert Hin. generalize (x :: paths). intros l.
    induction l as [|y l IH]; intros Hin; [contradiction|].
    unfold Cli.first_missing. simpl.
    destruct (isfile w y) eqn:Hy; simpl.
    - destruct Hin as [-> | Hin]; [congruence|].
      destruct (IH Hin) as (before & q & after & -> & Hb & Hq & Hf).
      exists (y :: before), q, after. repeat split; auto.
      intros z [<- | Hz]; auto.
    - exists [], y, l. repeat split; auto. }
  exists before, q, after. rewrite Hf. repeat split; auto.
Qed.

Lemma main_missing_attachment_witness :
  exists before q after,
    ["missing.pdf"] = before ++ q :: after /\
    (forall x, In x before -> isfile cli_world x = true) /\
    isfile cli_world q = false /\
    Cli.main any_float cli_world cooperative ".env"
      (cli_args None (Some ["missing.pdf"])) =
      {| Cli.out := [Say ("Error: Attachment file not found: " +:+ q)];
         Cli.net := [];
         Cli.ended := Cli.Exit 1 |}.
Proof.
  apply (main_missing_attachment any_float cli_world cooperative ".env"
           (cli_args None (Some ["missing.pdf"])) []
           (<["email" := VStr "me@x.org"]> {["password" := VStr "secret"]})
           {| email := "me@x.org"; password := "secret";
              smtp_server := "smtp.gmail.com"; smtp_port := PortInt 587 |}
           ["missing.pdf"] "missing.pdf"); try reflexivity.
  now left.
Defined.

Lemma attached_parts_length (w : world) (paths : list string)
    (attached r : list part) :
  attach_files w paths attached = Ret r ->
  (forall p, In p paths -> isfile w p = true) ->
  length (attached_parts w paths) = length paths.
Proof.
  revert attached. induction paths as [|p paths IH]; intros attached H Hall;
    [reflexivity|].
  simpl in H. pose proof (Hall p (or_introl eq_refl)) as Hp.
  unfold isfile in Hp. unfold attached_parts, readable_data in *. simpl.
  destruct (files w p) as [[|data]|]; try discriminate. simpl.
  f_equal. apply (IH _ H). intros q Hq. apply Hall. now right.
Qed.

(** X22. Through the command line no attachment is passed over: every
    message the program transmits carries the body and one part for each
    listed attachment. *)
Theorem main_attaches_every_file (float_truth : string -> bool) (w : world)
    (b : behaviour) (dotenv_path : string) (a : Cli.args)
    (from_addr : string) (rcpts : list string) (m : message) :
  In (Sendmail from_addr rcpts m)
     (Cli.net (Cli.main float_truth w b dotenv_path a)) ->
  parts m = TextPart (if Cli.html a then "html" else "plain") (Cli.body a)
            :: attached_parts w (default [] (Cli.attachment a)) /\
  length (parts m) = S (length (default [] (Cli.attachment a))).
Proof.
  unfold Cli.main.
  destruct (Cli.get_email_config _ _ _ _) as [shown [config|e]];
    [|intros []].
  destruct (Cli.construct config) as [[sender|]|e]; try (intros []).
  destruct (Cli.list_argument 1 _ _) as [σ1 cc].
  destruct (Cli.list_argument 2 _ _) as [σ2 bcc].
  assert (forall attachments,
            (forall p, In p (default [] attachments) -> isfile w p = true) ->
            In (Sendmail from_addr rcpts m)
               (wire (send_email w b sender σ2 (Addresses 0) (Cli.subject a)
                        (Cli.body a) (Cli.html a) attachments cc bcc)) ->
            parts m = TextPart (if Cli.html a then "html" else "plain") (Cli.body a)
                      :: attached_parts w (default [] attachments) /\
            length (parts m) = S (length (default [] attachments))) as Hsend.
  { intros attachments Hall. rewrite send_email_unfold. cbv zeta.
    destruct (attach _ _ _) as [attached|e] eqn:Hatt; simpl; [|intros []].
    intros Hin. apply session_sendmail in Hin as (_ & _ & ->). simpl.
    rewrite (attach_ret _ _ _ _ Hatt). split; [reflexivity|]. simpl. f_equal.
    unfold attach in Hatt. destruct attachments as [[|q paths]|]; try reflexivity.
    now apply (attached_parts_length _ _ _ _ Hatt). }
  destruct (Cli.attachment a) as [[|q paths]|].
  - cbv zeta. intros Hin. apply (Hsend None); [intros p []|].
    destruct (returned _) as [[]|]; exact Hin.
  - destruct (Cli.first_missing w (q :: paths)) eqn:Hm; [intros []|].
    cbv zeta. intros Hin. apply (Hsend (Some (q :: paths))).
    + intros p Hp. unfold Cli.first_missing in Hm.
      pose proof (find_none _ _ Hm p Hp) as Hp'. cbn beta in Hp'.
      now apply negb_false_iff in Hp'.
    + destruct (returned _) as [[]|]; exact Hin.
  - cbv zeta. intros Hin. apply (Hsend None); [intros p []|].
    destruct (returned _) as [[]|]; exact Hin.
Qed.

Lemma main_attaches_every_file_witness :
  length (parts {| headers := [("From", "me@x.org"); ("To", "a@x.org, b@x.org");
                               ("Subject", "subject")];
                   parts := [TextPart "plain" "body";
                             attachment_part "/tmp/out/report.pdf" "%PDF"] |})
  = 2.
Proof.
  refine (proj2 (main_attaches_every_file any_float cli_report_world cooperative
                   ".env" (cli_args None (Some ["/tmp/out/report.pdf"]))
                   "me@x.org" ["a@x.org"; "b@x.org"]
                   {| headers := [("From", "me@x.org");
                                  ("To", "a@x.org, b@x.org");
                                  ("Subject", "subject")];
                      parts := [TextPart "plain" "body";
                                attachment_part "/tmp/out/report.pdf" "%PDF"] |}
                   _)).
  vm_compute. do 6 right. left. reflexivity.
Defined.

(** ** Recipients on the command line *)

Lemma split_cons (c : ascii) (s : string) :
  exists x rest, Cli.split c s = x :: rest.
Proof.
  induction s as [|a s (x & rest & IH)]; simpl; [eauto|].
  destruct (Ascii.eqb a c); [eauto|]. rewrite IH. eauto.
Qed.

Lemma split_whole (c : ascii) (x : string) :
  Py.contains (String c EmptyString) x = false -> Cli.split c x = [x].
Proof.
  induction x as [|a x IH]; intros H; [reflexivity|].
  rewrite contains_char_cons in H. apply orb_false_iff in H as [Hc Hx].
  simpl. rewrite Ascii.eqb_sym, Hc. now rewrite (IH Hx).
Qed.

Lemma split_app (c : ascii) (x s : string) :
  Py.contains (String c EmptyString) x = false ->
  Cli.split c (x +:+ String c s) = x :: Cli.split c s.
Proof.
  induction x as [|a x IH]; intros H.
  - simpl. now rewrite Ascii.eqb_refl.
  - rewrite contains_char_cons in H. apply orb_false_iff in H as [Hc Hx].
    simpl. rewrite Ascii.eqb_sym, Hc. now rewrite (IH Hx).
Qed.

Lemma addresses_space (s : string) :
  Cli.addresses (String " " s) = Cli.addresses s.
Proof.
  unfold Cli.addresses. simpl.
  destruct (split_cons "," s) as (x & rest & ->). reflexivity.
Qed.

(** X23. The recipients of an option are the texts between its commas,
    each without the white space around it, and there is always at least
    one, were the option empty. A list of addresses without commas and
    without white space around them, written with a comma and a space
    between them as the [To] header has it, is read back as that list. *)
Theorem addresses_of_joined (l : list string) (s : string) :
  Cli.addresses s <> [] /\
  (l <> [] ->
   Forall (fun x => Py.contains "," x = false /\ Py.strip x = x) l ->
   Cli.addresses (Py.join ", " l) = l).
Proof.
  split.
  - unfold Cli.addresses. destruct (split_cons "," s) as (x & rest & ->).
    discriminate.
  - intros Hne H. induction H as [|x l [Hc Hs] Hl IH]; [contradiction|].
    destruct l as [|y l].
    + simpl. unfold Cli.addresses. rewrite (split_whole _ _ Hc).
      cbn [fmap list_fmap]. now rewrite Hs.
    + change (Py.join ", " (x :: y :: l))
        with (x +:+ String "," (String " " (Py.join ", " (y :: l)))).
      unfold Cli.addresses. rewrite (split_app _ _ _ Hc).
      cbn [fmap list_fmap]. rewrite Hs. f_equal.
      change (Cli.addresses (String " " (Py.join ", " (y :: l))) = y :: l).
      rewrite addresses_space. apply IH. discriminate.
Qed.

Lemma addresses_of_joined_witness :
  Cli.addresses "a@x.org, b@x.org" = ["a@x.org"; "b@x.org"].
Proof.
  apply (proj2 (addresses_of_joined ["a@x.org"; "b@x.org"] "")).
  - discriminate.
  - repeat constructor.
Defined.
